(** * WordbombBot: a shallow embedding of [main.py] and [generate_starters.py]

    The bot keeps a process-wide dictionary [games] (host id -> game
    object), mutates the game objects in place from several event handlers,
    and drives each started game from one coroutine ([startGame]).  The
    embedding keeps that shape:

    - a [world] is the [games] dictionary (in insertion order) together with
      a store of game objects addressed by reference, so that a handler and
      the turn loop see the same object, and an object deleted from [games]
      is still alive for the loop that holds it;
    - handlers are functions [world -> world * result reply];
    - the coroutine is a machine whose control points are the [await]s of
      [startGameCountdown], [startGame] and [gameOver]; one [task_step] runs
      the code between two suspensions, and other handlers run in between.

    Calls into the chat transport are assumed to succeed; what they return
    (a message handle) is an input.  Text is a string of code points below
    256 (Latin-1, one character per code point); on such text [lower] is
    Python's [str.lower], and [String.length], [substring] and [prefix] are
    [len], slicing and [startswith]. *)

From Stdlib Require Import ZArith String Ascii Bool DecimalString.
From Stdlib Require Import Floats.PrimFloat.
From stdpp Require Import base option list gmap strings.

Open Scope Z_scope.

(** ** Exceptions and results *)

Inductive exn : Type :=
| AttributeError
| KeyError
| IndexError
| TypeError
| ZeroDivisionError.

Inductive result (A : Type) : Type :=
| Ok (a : A)
| Raise (e : exn).
Arguments Ok {A} a.
Arguments Raise {A} e.

Definition bind {A B : Type} (r : result A) (k : A -> result B) : result B :=
  match r with
  | Ok a => k a
  | Raise e => Raise e
  end.

(** ** Strings *)

(** [str.lower].  A character is a code point below 256 (Latin-1).  On
    these, [str.lower] works character by character: the cased code points
    with a different lowercase form are [A]-[Z] (65-90) and the accented
    capitals 192-214 and 216-222, each 32 below its lowercase form; every
    other code point (digits, punctuation, the multiplication sign 215, the
    micro sign 181, sharp s 223, ...) is kept. *)
Definition lower_char (c : ascii) : ascii :=
  let n := nat_of_ascii c in
  if (((65 <=? n) && (n <=? 90))
      || ((192 <=? n) && (n <=? 214))
      || ((216 <=? n) && (n <=? 222)))%nat
  then ascii_of_nat (n + 32) else c.

Fixpoint lower (s : string) : string :=
  match s with
  | EmptyString => EmptyString
  | String c r => String (lower_char c) (lower r)
  end.

(** [s.startswith(p)]. *)
Definition startswith (s p : string) : bool := String.prefix p s.

(** [str(n)] for an integer. *)
Definition str (n : Z) : string := NilZero.string_of_int (Z.to_int n).

(** [random.choice(l)] with the drawn index as an input: an empty sequence
    raises [IndexError]. *)
Definition random_choice {A : Type} (pick : nat) (l : list A) : result A :=
  match l with
  | [] => Raise IndexError
  | x :: _ => Ok (nth (pick mod List.length l)%nat l x)
  end.

(** ** class Data *)

Inductive pyval : Type :=
| PySet (s : gset string)
| PyList (l : list string)
| PyFile.

(** The namespace left behind by a class body: attribute name -> value. *)
Definition class_namespace : Type := list (string * pyval).

(** The body of [class Data] binds [f] (by the [with] statement) and
    [words]; nothing else. *)
Definition Data (words : gset string) : class_namespace :=
  [("f"%string, PyFile); ("words"%string, PySet words)].

Fixpoint getattr (c : class_namespace) (name : string) : result pyval :=
  match c with
  | [] => Raise AttributeError
  | (k, v) :: rest => if String.eqb k name then Ok v else getattr rest name
  end.

(** [random.choice] applied to an attribute value. *)
Definition choice_of (pick : nat) (v : pyval) : result string :=
  match v with
  | PyList l => random_choice pick l
  | PySet _ => Raise TypeError
  | PyFile => Raise TypeError
  end.

(** ** class Player *)

Record Player : Type := {
  id : Z;
  status : string;
  hearts : Z
}.

Definition Player_init (i : Z) (st : string) : Player :=
  {| id := i; status := st; hearts := 2 |}.

(** The default of the [status] parameter. *)
Definition default_status : string := "Player".

Definition set_hearts (h : Z) (p : Player) : Player :=
  {| id := id p; status := status p; hearts := h |}.

(** ** Transport values *)

Definition handle : Type := nat.

Record Message : Type := {
  author : Z;
  channel : Z;
  content : string
}.

(** A button press or slash command: who, where, the button's [custom_id],
    and the handle of the message the response creates. *)
Record Interaction : Type := {
  user : Z;
  channel_id : Z;
  custom_id : string;
  reply : handle
}.

(** ** class wordbombGame *)

Record wordbombGame : Type := {
  userID : Z;
  channelID : Z;
  gameID : Z;
  stage : Z;
  plays : Z;
  countdown : Z;
  currentPlayerIndex : nat;
  timeRemaining : float;
  players : list Player;
  used_words : gset string;
  currentStarter : string;
  running : bool;
  responded : bool;
  singleplayer : bool;
  response : option Message;
  join_msg : option handle;
  main_msg : option handle
}.

(** [timeStageRelation]: the same literal in every instance. *)
Definition timeStageRelation (s : Z) : option float :=
  if s =? 1 then Some 8%float
  else if s =? 2 then Some 7%float
  else if s =? 3 then Some 6%float
  else if s =? 4 then Some 5%float
  else if s =? 5 then Some 4%float
  else if s =? 6 then Some 3%float
  else if s =? 7 then Some 2%float
  else None.

(** [stageStartersRelation]: for [i] in [range(1, 8)],
    [[word[i - 1] for word in Data.words if len(word) > i - 1]].
    It is computed from the immutable [Data.words] when the instance is
    built and never assigned again, so it is kept as a function of the
    dictionary. *)
Definition starters_at (words : gset string) (i : nat) : list string :=
  List.map (fun word => String.substring (i - 1) 1 word)
    (List.filter (fun word => (i - 1 <? String.length word)%nat)
       (elements words)).

Definition stageStartersRelation (words : gset string) (s : Z)
  : option (list string) :=
  if (1 <=? s) && (s <? 8) then Some (starters_at words (Z.to_nat s))
  else None.

(** The attribute assignments of [__init__], given the two random draws. *)
Definition init_fields (uid cid gid : Z) (starter : string) : wordbombGame :=
  {| userID := uid;
     channelID := cid;
     gameID := gid;
     stage := 1;
     plays := 0;
     countdown := 10;
     currentPlayerIndex := 0;
     timeRemaining := 8%float;
     players := [Player_init uid "Owner"];
     used_words := ∅;
     currentStarter := starter;
     running := true;
     responded := false;
     singleplayer := false;
     response := None;
     join_msg := None;
     main_msg := None |}.

(** [wordbombGame.__init__]: [gid] is the value of [random.randint], [pick]
    the index drawn by [random.choice].  Line 80 reads
    [Data.easy_starters]. *)
Definition wordbombGame_init (words : gset string) (gid : Z) (pick : nat)
    (uid cid : Z) : result wordbombGame :=
  bind (getattr (Data words) "easy_starters") (fun v =>
  bind (choice_of pick v) (fun starter =>
  Ok (init_fields uid cid gid starter))).

(** Field updates. *)
Definition set_stage (v : Z) (g : wordbombGame) : wordbombGame :=
  {| userID := userID g; channelID := channelID g; gameID := gameID g;
     stage := v; plays := plays g; countdown := countdown g;
     currentPlayerIndex := currentPlayerIndex g;
     timeRemaining := timeRemaining g; players := players g;
     used_words := used_words g; currentStarter := currentStarter g;
     running := running g; responded := responded g;
     singleplayer := singleplayer g; response := response g;
     join_msg := join_msg g; main_msg := main_msg g |}.

Definition set_plays (v : Z) (g : wordbombGame) : wordbombGame :=
  {| userID := userID g; channelID := channelID g; gameID := gameID g;
     stage := stage g; plays := v; countdown := countdown g;
     currentPlayerIndex := currentPlayerIndex g;
     timeRemaining := timeRemaining g; players := players g;
     used_words := used_words g; currentStarter := currentStarter g;
     running := running g; responded := responded g;
     singleplayer := singleplayer g; response := response g;
     join_msg := join_msg g; main_msg := main_msg g |}.

Definition set_countdown (v : Z) (g : wordbombGame) : wordbombGame :=
  {| userID := userID g; channelID := channelID g; gameID := gameID g;
     stage := stage g; plays := plays g; countdown := v;
     currentPlayerIndex := currentPlayerIndex g;
     timeRemaining := timeRemaining g; players := players g;
     used_words := used_words g; currentStarter := currentStarter g;
     running := running g; responded := responded g;
     singleplayer := singleplayer g; response := response g;
     join_msg := join_msg g; main_msg := main_msg g |}.

Definition set_currentPlayerIndex (v : nat) (g : wordbombGame) : wordbombGame :=
  {| userID := userID g; channelID := channelID g; gameID := gameID g;
     stage := stage g; plays := plays g; countdown := countdown g;
     currentPlayerIndex := v;
     timeRemaining := timeRemaining g; players := players g;
     used_words := used_words g; currentStarter := currentStarter g;
     running := running g; responded := responded g;
     singleplayer := singleplayer g; response := response g;
     join_msg := join_msg g; main_msg := main_msg g |}.

Definition set_timeRemaining (v : float) (g : wordbombGame) : wordbombGame :=
  {| userID := userID g; channelID := channelID g; gameID := gameID g;
     stage := stage g; plays := plays g; countdown := countdown g;
     currentPlayerIndex := currentPlayerIndex g;
     timeRemaining := v; players := players g;
     used_words := used_words g; currentStarter := currentStarter g;
     running := running g; responded := responded g;
     singleplayer := singleplayer g; response := response g;
     join_msg := join_msg g; main_msg := main_msg g |}.

Definition set_players (v : list Player) (g : wordbombGame) : wordbombGame :=
  {| userID := userID g; channelID := channelID g; gameID := gameID g;
     stage := stage g; plays := plays g; countdown := countdown g;
     currentPlayerIndex := currentPlayerIndex g;
     timeRemaining := timeRemaining g; players := v;
     used_words := used_words g; currentStarter := currentStarter g;
     running := running g; responded := responded g;
     singleplayer := singleplayer g; response := response g;
     join_msg := join_msg g; main_msg := main_msg g |}.

Definition set_used_words (v : gset string) (g : wordbombGame) : wordbombGame :=
  {| userID := userID g; channelID := channelID g; gameID := gameID g;
     stage := stage g; plays := plays g; countdown := countdown g;
     currentPlayerIndex := currentPlayerIndex g;
     timeRemaining := timeRemaining g; players := players g;
     used_words := v; currentStarter := currentStarter g;
     running := running g; responded := responded g;
     singleplayer := singleplayer g; response := response g;
     join_msg := join_msg g; main_msg := main_msg g |}.

Definition set_currentStarter (v : string) (g : wordbombGame) : wordbombGame :=
  {| userID := userID g; channelID := channelID g; gameID := gameID g;
     stage := stage g; plays := plays g; countdown := countdown g;
     currentPlayerIndex := currentPlayerIndex g;
     timeRemaining := timeRemaining g; players := players g;
     used_words := used_words g; currentStarter := v;
     running := running g; responded := responded g;
     singleplayer := singleplayer g; response := response g;
     join_msg := join_msg g; main_msg := main_msg g |}.

Definition set_running (v : bool) (g : wordbombGame) : wordbombGame :=
  {| userID := userID g; channelID := channelID g; gameID := gameID g;
     stage := stage g; plays := plays g; countdown := countdown g;
     currentPlayerIndex := currentPlayerIndex g;
     timeRemaining := timeRemaining g; players := players g;
     used_words := used_words g; currentStarter := currentStarter g;
     running := v; responded := responded g;
     singleplayer := singleplayer g; response := response g;
     join_msg := join_msg g; main_msg := main_msg g |}.

Definition set_singleplayer (v : bool) (g : wordbombGame) : wordbombGame :=
  {| userID := userID g; channelID := channelID g; gameID := gameID g;
     stage := stage g; plays := plays g; countdown := countdown g;
     currentPlayerIndex := currentPlayerIndex g;
     timeRemaining := timeRemaining g; players := players g;
     used_words := used_words g; currentStarter := currentStarter g;
     running := running g; responded := responded g;
     singleplayer := v; response := response g;
     join_msg := join_msg g; main_msg := main_msg g |}.

(** [Game.response, Game.responded = m, b]. *)
Definition set_response (m : option Message) (b : bool) (g : wordbombGame)
  : wordbombGame :=
  {| userID := userID g; channelID := channelID g; gameID := gameID g;
     stage := stage g; plays := plays g; countdown := countdown g;
     currentPlayerIndex := currentPlayerIndex g;
     timeRemaining := timeRemaining g; players := players g;
     used_words := used_words g; currentStarter := currentStarter g;
     running := running g; responded := b;
     singleplayer := singleplayer g; response := m;
     join_msg := join_msg g; main_msg := main_msg g |}.

Definition set_join_msg (v : option handle) (g : wordbombGame) : wordbombGame :=
  {| userID := userID g; channelID := channelID g; gameID := gameID g;
     stage := stage g; plays := plays g; countdown := countdown g;
     currentPlayerIndex := currentPlayerIndex g;
     timeRemaining := timeRemaining g; players := players g;
     used_words := used_words g; currentStarter := currentStarter g;
     running := running g; responded := responded g;
     singleplayer := singleplayer g; response := response g;
     join_msg := v; main_msg := main_msg g |}.

Definition set_main_msg (v : option handle) (g : wordbombGame) : wordbombGame :=
  {| userID := userID g; channelID := channelID g; gameID := gameID g;
     stage := stage g; plays := plays g; countdown := countdown g;
     currentPlayerIndex := currentPlayerIndex g;
     timeRemaining := timeRemaining g; players := players g;
     used_words := used_words g; currentStarter := currentStarter g;
     running := running g; responded := responded g;
     singleplayer := singleplayer g; response := response g;
     join_msg := join_msg g; main_msg := v |}.

(** ** The registry [games] and the object store *)

Definition ref : Type := nat.

Record world : Type := {
  games : list (Z * ref);
  heap : list wordbombGame
}.

(** [games.values()], in insertion order. *)
Definition games_values (w : world) : list (ref * wordbombGame) :=
  omap (fun kr => match heap w !! snd kr with
                  | Some g => Some (snd kr, g)
                  | None => None
                  end) (games w).

(** [games[k]] (and [k in games]). *)
Fixpoint dict_get (k : Z) (d : list (Z * ref)) : option ref :=
  match d with
  | [] => None
  | (k', r) :: rest => if k' =? k then Some r else dict_get k rest
  end.

(** [del games[k]]. *)
Definition dict_del (k : Z) (d : list (Z * ref)) : list (Z * ref) :=
  List.filter (fun kr => negb (fst kr =? k)) d.

(** Mutation of the object behind a reference. *)
Definition store (r : ref) (g : wordbombGame) (w : world) : world :=
  {| games := games w; heap := <[r := g]> (heap w) |}.

(** ** Handlers *)

Inductive create_reply : Type :=
| RoomOccupied
| HostAlreadyHosting
| Created (r : ref).

Inductive join_reply : Type :=
| AlreadyJoined
| Joined (r : ref)
| GameNotFound.

Inductive start_reply : Type :=
| AlreadyStarted
| NotHost
| CountdownBegun (r : ref)
| NoSuchButton.

Inductive stop_reply : Type :=
| NoOngoingGames
| Stopped.

(** [userGameInstanceCreation]: the two guards, then
    [games[interaction.user.id] = wordbombGame(...)]; [join_msg] is the
    message sent in response. *)
Definition userGameInstanceCreation (words : gset string) (gid : Z)
    (pick : nat) (i : Interaction) (w : world) : world * result create_reply :=
  if existsb (fun rg => channelID (snd rg) =? channel_id i) (games_values w)
  then (w, Ok RoomOccupied)
  else
    match dict_get (user i) (games w) with
    | Some _ => (w, Ok HostAlreadyHosting)
    | None =>
        match wordbombGame_init words gid pick (user i) (channel_id i) with
        | Raise e => (w, Raise e)
        | Ok g =>
            let r := List.length (heap w) in
            ({| games := games w ++ [(user i, r)];
                heap := heap w ++ [set_join_msg (Some (reply i)) g] |},
             Ok (Created r))
        end
    end.

(** [joinGame]: the first game whose [str(gameID)] is the button's id. *)
Definition joinGame (i : Interaction) (w : world) : world * result join_reply :=
  match List.find (fun rg => String.eqb (str (gameID (snd rg))) (custom_id i))
                  (games_values w) with
  | None => (w, Ok GameNotFound)
  | Some (r, g) =>
      if existsb (fun p => id p =? user i) (players g)
      then (w, Ok AlreadyJoined)
      else
        let g' := set_players (players g ++ [Player_init (user i) default_status]) g in
        match join_msg g' with
        | None => (store r g' w, Raise AttributeError)
        | Some _ => (store r g' w, Ok (Joined r))
        end
  end.

(** [startGameCountdown] up to the point where the countdown message is
    sent; the coroutine then continues at [AwaitCountdown 5] below. *)
Definition startGameCountdown (i : Interaction) (w : world)
  : world * result start_reply :=
  match List.find (fun rg => String.eqb (str (gameID (snd rg)) ++ "###")
                                        (custom_id i))
                  (games_values w) with
  | None => (w, Ok NoSuchButton)
  | Some (r, g) =>
      let g1 := if (List.length (players g) =? 1)%nat
                then set_singleplayer true g else g in
      if stage g1 =? 1 then (store r g1 w, Ok AlreadyStarted)
      else if negb (user i =? userID g1) then (store r g1 w, Ok NotHost)
      else (store r (set_main_msg (Some (reply i)) g1) w, Ok (CountdownBegun r))
  end.

(** The body of the loop of [on_message] for one game. *)
Definition on_message_game (m : Message) (g : wordbombGame)
  : result wordbombGame :=
  if channelID g =? channel m then
    if existsb (fun p => id p =? author m) (players g) then
      match players g !! currentPlayerIndex g with
      | None => Raise IndexError
      | Some p =>
          if id p =? author m then Ok (set_response (Some m) true g)
          else Ok g
      end
    else Ok g
  else Ok g.

Fixpoint on_message_loop (m : Message) (rs : list (Z * ref))
    (h : list wordbombGame) : list wordbombGame * result unit :=
  match rs with
  | [] => (h, Ok tt)
  | (_, r) :: rest =>
      match h !! r with
      | None => on_message_loop m rest h
      | Some g =>
          match on_message_game m g with
          | Raise e => (h, Raise e)
          | Ok g' => on_message_loop m rest (<[r := g']> h)
          end
      end
  end.

(** [on_message]: every game of [games.values()] is visited. *)
Definition on_message (m : Message) (w : world) : world * result unit :=
  let hr := on_message_loop m (games w) (heap w) in
  ({| games := games w; heap := fst hr |}, snd hr).

(** [stopgame]: [games[interaction.user.id]] raises [KeyError] for a user
    without a game; a game object is always truthy, so the "no ongoing
    games" branch is dead; the entry is deleted before [main_msg] is
    edited. *)
Definition stopgame (i : Interaction) (w : world) : world * result stop_reply :=
  match dict_get (user i) (games w) with
  | None => (w, Raise KeyError)
  | Some r =>
      let w' := {| games := dict_del (user i) (games w); heap := heap w |} in
      match heap w !! r with
      | None => (w', Raise AttributeError)
      | Some g =>
          match main_msg g with
          | None => (w', Raise AttributeError)
          | Some _ => (w', Ok Stopped)
          end
      end
  end.

(** ** The coroutine: countdown, [startGame] and [gameOver] *)

(** Where the coroutine is suspended. *)
Inductive pc : Type :=
| AwaitCountdown (n : nat)   (* lines 210-216: [n] decrements still to do *)
| AwaitEditNextup            (* line 147 *)
| AwaitPoll                  (* line 150 *)
| AwaitTimeoutPause          (* lines 154-155 *)
| AwaitReaction              (* line 164 *)
| AwaitRejectPause           (* lines 166-167 *)
| AwaitDiedEdit              (* line 173 *)
| AwaitDiedPause             (* line 177 *)
| AwaitWinsEdit              (* line 180 *)
| AwaitGameOver              (* lines 108-111 *)
| Returned
| Crashed (e : exn).

(** [Game.main_msg.<method>(...)]: [None] has no such attribute. *)
Definition on_main_msg (g : wordbombGame) (k : wordbombGame * pc)
  : wordbombGame * pc :=
  match main_msg g with
  | None => (g, Crashed AttributeError)
  | Some _ => k
  end.

(** [Game.players[Game.currentPlayerIndex].hearts -= 1]. *)
Definition lose_life (g : wordbombGame) : result wordbombGame :=
  match players g !! currentPlayerIndex g with
  | None => Raise IndexError
  | Some p =>
      Ok (set_players
            (<[currentPlayerIndex g := set_hearts (hearts p - 1) p]> (players g))
            g)
  end.

(** The condition of line 160-163, negated: the answer is accepted. *)
Definition accepts (words : gset string) (g : wordbombGame)
    (response_content : string) : bool :=
  negb ((String.length response_content <? 2)%nat
        || bool_decide (response_content ∈ used_words g)
        || negb (startswith response_content (lower (currentStarter g)))
        || negb (bool_decide (response_content ∈ words))).

(** Lines 169-170. *)
Definition accept_answer (response_content : string) (g : wordbombGame)
  : wordbombGame :=
  set_plays (plays g + 1)
    (set_used_words ({[response_content]} ∪ used_words g) g).

(** [gameOver] up to its first [await]. *)
Definition gameOver_begin (g : wordbombGame) : wordbombGame * pc :=
  on_main_msg g (g, AwaitGameOver).

(** What [gameOver] shows as the winner. *)
Definition gameOver_winner (g : wordbombGame) : option Z :=
  match players g with
  | p :: _ => Some (id p)
  | [] => None
  end.

(** Lines 140-147: the loop test, the empty-roster exit, the player on the
    clock. *)
Definition loop_head (g : wordbombGame) : wordbombGame * pc :=
  if running g then
    match players g with
    | [] => gameOver_begin g
    | _ :: _ =>
        match players g !! currentPlayerIndex g with
        | None => (g, Crashed IndexError)
        | Some _ => on_main_msg g (g, AwaitEditNextup)
        end
    end
  else (g, Returned).

(** Lines 184-188, then back to the loop test. *)
Definition advance (words : gset string) (pick : nat) (g : wordbombGame)
  : wordbombGame * pc :=
  let g1 := set_stage (Z.min 7 (plays g / 10 + 1)) g in
  match timeStageRelation (stage g1) with
  | None => (g1, Crashed KeyError)
  | Some t =>
      let g2 := set_timeRemaining t g1 in
      match stageStartersRelation words (stage g2) with
      | None => (g2, Crashed KeyError)
      | Some l =>
          match random_choice pick l with
          | Raise e => (g2, Crashed e)
          | Ok s =>
              let g3 := set_currentStarter s g2 in
              match List.length (players g3) with
              | O => (g3, Crashed ZeroDivisionError)
              | S _ as n =>
                  loop_head
                    (set_response None false
                       (set_currentPlayerIndex
                          ((currentPlayerIndex g3 + 1) mod n)%nat g3))
              end
          end
      end
  end.

(** Lines 179-182. *)
Definition win_check (words : gset string) (pick : nat) (g : wordbombGame)
  : wordbombGame * pc :=
  if (List.length (players g) =? 1)%nat && negb (singleplayer g)
  then on_main_msg g (g, AwaitWinsEdit)
  else advance words pick g.

(** Line 172. *)
Definition eliminate_check (words : gset string) (pick : nat)
    (g : wordbombGame) : wordbombGame * pc :=
  match players g !! currentPlayerIndex g with
  | None => (g, Crashed IndexError)
  | Some p =>
      if hearts p =? 0 then on_main_msg g (g, AwaitDiedEdit)
      else win_check words pick g
  end.

(** Lines 174-176, after the "died" edit. *)
Definition eliminate (g : wordbombGame) : wordbombGame * pc :=
  match players g !! currentPlayerIndex g with
  | None => (g, Crashed IndexError)
  | Some _ =>
      let g1 := set_players (delete (currentPlayerIndex g) (players g)) g in
      let g2 := if (List.length (players g1) <=? currentPlayerIndex g1)%nat
                then set_currentPlayerIndex 0%nat g1 else g1 in
      (g2, AwaitDiedPause)
  end.

(** Lines 158-170 up to the first [await]. *)
Definition resolve (words : gset string) (pick : nat) (g : wordbombGame)
  : wordbombGame * pc :=
  if responded g then
    match response g with
    | None => (g, Crashed AttributeError)
    | Some m =>
        let response_content := lower (content m) in
        if accepts words g response_content
        then eliminate_check words pick (accept_answer response_content g)
        else (g, AwaitReaction)
    end
  else eliminate_check words pick g.

(** The test of [while not Game.responded]. *)
Definition wait_check (words : gset string) (pick : nat) (g : wordbombGame)
  : wordbombGame * pc :=
  if responded g then resolve words pick g else (g, AwaitPoll).

(** Lines 151-155, after one sleep of 0.1. *)
Definition poll (words : gset string) (pick : nat) (g : wordbombGame)
  : wordbombGame * pc :=
  let g1 := set_timeRemaining
              (PrimFloat.sub (timeRemaining g) 0x1.999999999999ap-4%float) g in
  if PrimFloat.leb (timeRemaining g1) 0%float then
    match lose_life g1 with
    | Raise e => (g1, Crashed e)
    | Ok g2 => on_main_msg g2 (g2, AwaitTimeoutPause)
    end
  else wait_check words pick g1.

(** The code between one suspension and the next. *)
Definition task_step (words : gset string) (pick : nat) (c : pc)
    (g : wordbombGame) : wordbombGame * pc :=
  match c with
  | AwaitCountdown (S n) => (set_countdown (countdown g - 1) g, AwaitCountdown n)
  | AwaitCountdown O => loop_head g
  | AwaitEditNextup => wait_check words pick g
  | AwaitPoll => poll words pick g
  | AwaitTimeoutPause => resolve words pick g
  | AwaitReaction =>
      match lose_life g with
      | Raise e => (g, Crashed e)
      | Ok g1 => on_main_msg g1 (g1, AwaitRejectPause)
      end
  | AwaitRejectPause => eliminate_check words pick g
  | AwaitDiedEdit => eliminate g
  | AwaitDiedPause => win_check words pick g
  | AwaitWinsEdit => gameOver_begin g
  | AwaitGameOver =>
      match join_msg g with
      | None => (g, Crashed AttributeError)
      | Some _ => (set_running false g, Returned)
      end
  | Returned => (g, Returned)
  | Crashed e => (g, Crashed e)
  end.

(** ** One coroutine among the handlers *)

Inductive event : Type :=
| MessageSent (m : Message)
| JoinPressed (i : Interaction)
| StopCommand (i : Interaction).

(** A handler runs to its end while the coroutine is suspended; what it
    replies, or an exception that ends it, does not reach the coroutine. *)
Definition deliver (e : event) (w : world) : world :=
  match e with
  | MessageSent m => fst (on_message m w)
  | JoinPressed i => fst (joinGame i w)
  | StopCommand i => fst (stopgame i w)
  end.

Inductive action : Type :=
| Resume (pick : nat)
| Deliver (e : event).

Record system : Type := {
  sys_world : world;
  sys_task : ref;
  sys_pc : pc
}.

Definition step (words : gset string) (a : action) (s : system) : system :=
  match a with
  | Deliver e =>
      {| sys_world := deliver e (sys_world s);
         sys_task := sys_task s; sys_pc := sys_pc s |}
  | Resume pick =>
      match heap (sys_world s) !! sys_task s with
      | None => s
      | Some g =>
          let gc := task_step words pick (sys_pc s) g in
          {| sys_world := store (sys_task s) (fst gc) (sys_world s);
             sys_task := sys_task s; sys_pc := snd gc |}
      end
  end.

Definition run (words : gset string) (l : list action) (s : system) : system :=
  fold_left (fun s a => step words a s) l s.

(** ** [generate_starters.py] *)

(** [{i-1: [word[:i-1] for word in words if len(word[:i-1]) > 0]
      for i in range(1, 8)}]: key [k] in 0..6 holds the slices [word[:k]]. *)
Definition dic (words : gset string) (k : Z) : option (list string) :=
  if (0 <=? k) && (k <? 7) then
    Some (List.map (fun word => String.substring 0 (Z.to_nat k) word)
            (List.filter
               (fun word =>
                  (0 <? String.length (String.substring 0 (Z.to_nat k) word))%nat)
               (elements words)))
  else None.

(** ** Concrete sessions

    A two-word dictionary, the world as it stands after a successful
    creation by user 1 in room 10 (the field values of [__init__], the join
    message recorded), a second player, and the coroutine at the moment the
    countdown message has been sent. *)

Definition small_words : gset string := {["ab"%string]} ∪ {["abc"%string]}.

Definition empty_world : world := {| games := []; heap := [] |}.

Definition create_press : Interaction :=
  {| user := 1; channel_id := 10; custom_id := ""; reply := 100%nat |}.

Definition lobby_game : wordbombGame :=
  set_join_msg (Some 100%nat) (init_fields 1 10 42 "a").

Definition lobby_world : world := {| games := [(1, 0%nat)]; heap := [lobby_game] |}.

Definition join_press (u : Z) : Interaction :=
  {| user := u; channel_id := 10; custom_id := "42"; reply := 0%nat |}.

Definition start_press (u : Z) : Interaction :=
  {| user := u; channel_id := 10; custom_id := "42###"; reply := 101%nat |}.

Definition stop_command (u : Z) : Interaction :=
  {| user := u; channel_id := 10; custom_id := ""; reply := 0%nat |}.

Definition say (u : Z) (text : string) : Message :=
  {| author := u; channel := 10; content := text |}.

(** The coroutine of game 0 suspended after the countdown message, as line
    210 leaves it: [main_msg] assigned, five decrements to go.  The guards
    of the start button are not run here. *)
Definition launched (w : world) (single : bool) : system :=
  match heap w !! 0%nat with
  | Some g =>
      {| sys_world := store 0%nat (set_main_msg (Some 101%nat)
                                     (set_singleplayer single g)) w;
         sys_task := 0%nat; sys_pc := AwaitCountdown 5 |}
  | None => {| sys_world := w; sys_task := 0%nat; sys_pc := Returned |}
  end.

(** Users 1 and 2 play. *)
Definition duel : system := launched (fst (joinGame (join_press 2) lobby_world)) false.

(** User 1 plays alone: [singleplayer] was set by the start button. *)
Definition solo : system := launched lobby_world true.

Definition resumes (n : nat) : list action := repeat (Resume 0) n.

(** Six resumptions bring the coroutine from the countdown message to the
    edit that announces the first player. *)
Definition through_countdown : list action := resumes 6.

(** No answer: the edit returns, then 81 sleeps of 0.1 exhaust the 8
    seconds of stage 1; the coroutine is left in the pause that follows the
    life loss. *)
Definition until_timeout : list action := resumes 1 ++ resumes 81.

(** A turn in which nobody answers, the pause included. *)
Definition silent_turn : list action := until_timeout ++ resumes 1.

(** A turn in which [m] arrives during the first sleep. *)
Definition answered_turn (m : Message) : list action :=
  resumes 1 ++ [Deliver (MessageSent m)] ++ resumes 1.

Definition game_of (s : system) : option wordbombGame :=
  heap (sys_world s) !! sys_task s.

Definition hearts_of (s : system) : option (list (Z * Z)) :=
  (fun g => List.map (fun p => (id p, hearts p)) (players g)) <$> game_of s.

(** Users 1 and 2 at the table: the countdown is over and the first player
    has been announced. *)
Definition table : system := run small_words through_countdown duel.

(** The game object of [table]. *)
Definition table_game : wordbombGame :=
  set_countdown 5
    (set_main_msg (Some 101%nat)
       (set_players [Player_init 1 "Owner"; Player_init 2 "Player"] lobby_game)).

(** The host stops the game at the table: the registry entry is deleted,
    the coroutine is still suspended on the object. *)
Definition stopped_table : system :=
  step small_words (Deliver (StopCommand (stop_command 1))) table.

(** A second lobby, of user 5 in room 20, whose random [gameID] is also
    42. *)
Definition twin_game : wordbombGame :=
  set_join_msg (Some 200%nat) (init_fields 5 20 42 "a").

Definition twin_world : world :=
  {| games := [(1, 0%nat); (5, 1%nat)]; heap := [lobby_game; twin_game] |}.

(** A button that belongs to no game of [lobby_world]. *)
Definition stale_press (u : Z) : Interaction :=
  {| user := u; channel_id := 10; custom_id := "7"; reply := 0%nat |}.

(** The game at the table once "ab" has been accepted from user 1: lines
    169-170 have run, lines 184-188 are next. *)
Definition accepted_game : wordbombGame :=
  accept_answer "ab" (set_response (Some (say 1 "ab")) true table_game).

(** ** The tables under another iteration order *)

(** [[word[i - 1] for word in Data.words if len(word) > i - 1]] when the
    set is iterated in the order [order]. *)
Definition starters_from (order : list string) (i : nat) : list string :=
  List.map (fun word => String.substring (i - 1) 1 word)
    (List.filter (fun word => (i - 1 <? String.length word)%nat) order).

(** [[word[:k] for word in words if len(word[:k]) > 0]] when the set is
    iterated in the order [order]. *)
Definition dic_from (order : list string) (k : nat) : list string :=
  List.map (fun word => String.substring 0 k word)
    (List.filter
       (fun word => (0 <? String.length (String.substring 0 k word))%nat)
       order).

(** ** The [randomword] command *)

(** [random.choice(list(Data.words))]. *)
Definition randomword (words : gset string) (pick : nat) : result string :=
  random_choice pick (elements words).

(** ** Relations between a game object before and after *)

(** What [on_message] may do to a game with message [m]. *)
Definition message_effect (m : Message) (g g' : wordbombGame) : Prop :=
  g' = g \/ g' = set_response (Some m) true g.

(** ** Runs of the coroutine alone *)

(** The coroutine resumed once for every draw of [picks], no handler
    running in between. *)
Fixpoint resume_all (words : gset string) (picks : list nat)
    (g : wordbombGame) (c : pc) : wordbombGame * pc :=
  match picks with
  | [] => (g, c)
  | pick :: rest =>
      let gc := task_step words pick c g in
      resume_all words rest (fst gc) (snd gc)
  end.

(** [timeRemaining] after [n] sleeps of the wait loop. *)
Fixpoint drain (n : nat) (t : float) : float :=
  match n with
  | O => t
  | S k => drain k (PrimFloat.sub t 0x1.999999999999ap-4%float)
  end.

(** None of the first [n] sleeps reaches [timeRemaining <= 0]. *)
Fixpoint still_waiting (n : nat) (t : float) : bool :=
  match n with
  | O => true
  | S k =>
      let t' := PrimFloat.sub t 0x1.999999999999ap-4%float in
      negb (PrimFloat.leb t' 0%float) && still_waiting k t'
  end.

(** ** Predicates on game objects *)

(** What the handlers delivered to a suspended coroutine may have done to a
    game object: a pending answer set, players appended with two lives
    each and with identities that keep the roster free of duplicates. *)
Definition touched (g g' : wordbombGame) : Prop :=
  exists m b l,
    g' = set_response m b (set_players (players g ++ l) g)
    /\ Forall (fun p => hearts p = 2) l
    /\ (NoDup (id <$> players g) -> NoDup (id <$> (players g ++ l))).

(** [currentPlayerIndex] designates a roster entry, or is 0 on the empty
    roster. *)
Definition index_ok (g : wordbombGame) : Prop :=
  (currentPlayerIndex g < List.length (players g))%nat
  \/ (players g = [] /\ currentPlayerIndex g = 0%nat).

(** [plays] counts the used words, each of which is a dictionary word of
    at least two characters. *)
Definition words_ok (words : gset string) (g : wordbombGame) : Prop :=
  plays g = Z.of_nat (size (used_words g))
  /\ forall w, w ∈ used_words g -> w ∈ words /\ (2 <= String.length w)%nat.

Definition lives_at_most_two (g : wordbombGame) : Prop :=
  Forall (fun p => hearts p <= 2) (players g).

Definition roster_distinct (g : wordbombGame) : Prop :=
  NoDup (id <$> players g).

(** What never changes in a game object, and what only grows. *)
Definition grows (g g' : wordbombGame) : Prop :=
  userID g' = userID g /\ channelID g' = channelID g /\ gameID g' = gameID g
  /\ singleplayer g' = singleplayer g
  /\ join_msg g' = join_msg g /\ main_msg g' = main_msg g
  /\ used_words g ⊆ used_words g' /\ plays g <= plays g'.

(** ** Predicates on the coroutine *)

(** Every resumption of the run [l] happens in a state that satisfies
    [G]. *)
Fixpoint resumes_when (G : pc -> wordbombGame -> Prop) (words : gset string)
    (l : list action) (s : system) : Prop :=
  match l with
  | [] => True
  | a :: rest =>
      match a with
      | Resume _ => forall g, game_of s = Some g -> G (sys_pc s) g
      | Deliver _ => True
      end
      /\ resumes_when G words rest (step words a s)
  end.

(** The roster is non-empty wherever the coroutine can be suspended,
    except in the pause that follows an elimination. *)
Definition roster_present (c : pc) (g : wordbombGame) : Prop :=
  match c with
  | AwaitDiedPause | Returned | Crashed _ => True
  | _ => players g <> []
  end.

(** A running game flagged [singleplayer] that has not reached the win
    announcement or [gameOver]. *)
Definition solo_running (c : pc) (g : wordbombGame) : Prop :=
  singleplayer g = true /\ running g = true
  /\ match c with
     | AwaitWinsEdit | AwaitGameOver | Returned => False
     | AwaitDiedPause | Crashed _ => True
     | _ => players g <> []
     end.

(** Every player has a life left. *)
Definition all_alive (g : wordbombGame) : Prop :=
  Forall (fun p => 1 <= hearts p) (players g).

(** Nobody is below zero, and everybody but the player on the clock has a
    life left. *)
Definition others_alive (g : wordbombGame) : Prop :=
  forall k p, players g !! k = Some p ->
    0 <= hearts p /\ (k <> currentPlayerIndex g -> 1 <= hearts p).

Definition none_negative (g : wordbombGame) : Prop :=
  Forall (fun p => 0 <= hearts p) (players g).

(** Lives at each suspension point: between a life loss and the matching
    elimination test the player on the clock may be at zero. *)
Definition lives_inv (c : pc) (g : wordbombGame) : Prop :=
  match c with
  | AwaitTimeoutPause | AwaitRejectPause | AwaitDiedEdit => others_alive g
  | Crashed _ => none_negative g
  | _ => all_alive g
  end.

(** No answer is pending when the coroutine resumes from the pause that
    follows a timeout. *)
Definition punctual (c : pc) (g : wordbombGame) : Prop :=
  c = AwaitTimeoutPause -> responded g = false.

(** ** Predicates of the answer path *)

(** The coroutine is about to run lines 158-170 with an answer pending:
    it resumes from the "next up" edit or from a sleep that does not
    exhaust the clock and finds [responded] set, or it resumes from the
    pause that follows a timeout with an answer that came in meanwhile. *)
Definition answer_pending (c : pc) (g : wordbombGame) : Prop :=
  responded g = true
  /\ (c = AwaitEditNextup
      \/ c = AwaitTimeoutPause
      \/ (c = AwaitPoll
          /\ PrimFloat.leb
               (PrimFloat.sub (timeRemaining g) 0x1.999999999999ap-4%float)
               0%float = false)).

(** The coroutine is suspended with the answer of the turn awaited: on the
    "next up" edit of line 147 or in a sleep of the wait loop, line 150. *)
Definition in_turn_wait (c : pc) : Prop := c = AwaitEditNextup \/ c = AwaitPoll.

(** Every attribute but [players] is the same in [g] and [g']. *)
Definition same_but_players (g g' : wordbombGame) : Prop :=
  userID g' = userID g /\ channelID g' = channelID g /\ gameID g' = gameID g
  /\ stage g' = stage g /\ plays g' = plays g /\ countdown g' = countdown g
  /\ currentPlayerIndex g' = currentPlayerIndex g
  /\ timeRemaining g' = timeRemaining g
  /\ used_words g' = used_words g /\ currentStarter g' = currentStarter g
  /\ running g' = running g /\ responded g' = responded g
  /\ singleplayer g' = singleplayer g /\ response g' = response g
  /\ join_msg g' = join_msg g /\ main_msg g' = main_msg g.

(** Every attribute but [responded] and [response] is the same in [g] and
    [g']. *)
Definition same_but_answer (g g' : wordbombGame) : Prop :=
  userID g' = userID g /\ channelID g' = channelID g /\ gameID g' = gameID g
  /\ stage g' = stage g /\ plays g' = plays g /\ countdown g' = countdown g
  /\ currentPlayerIndex g' = currentPlayerIndex g
  /\ timeRemaining g' = timeRemaining g /\ players g' = players g
  /\ used_words g' = used_words g /\ currentStarter g' = currentStarter g
  /\ running g' = running g /\ singleplayer g' = singleplayer g
  /\ join_msg g' = join_msg g /\ main_msg g' = main_msg g.

(** Closes the field-by-field goals of [grows]. *)
Ltac grows_fields :=
  unfold grows; simpl; repeat apply conj;
  first [reflexivity | assumption | congruence | lia | set_solver].

(** * Properties *)

(** ** Creating a game *)

Lemma Data_words (words : gset string) :
  getattr (Data words) "words" = Ok (PySet words).
Proof. reflexivity. Qed.

Lemma Data_easy_starters (words : gset string) :
  getattr (Data words) "easy_starters" = Raise AttributeError.
Proof. reflexivity. Qed.

Lemma wordbombGame_init_raises (words : gset string) gid pick uid cid :
  wordbombGame_init words gid pick uid cid = Raise AttributeError.
Proof. unfold wordbombGame_init. rewrite Data_easy_starters. reflexivity. Qed.

Lemma create_room_occupied words gid pick i w :
  existsb (fun rg => channelID (snd rg) =? channel_id i) (games_values w) = true ->
  userGameInstanceCreation words gid pick i w = (w, Ok RoomOccupied).
Proof. intros H. unfold userGameInstanceCreation. rewrite H. reflexivity. Qed.

Lemma create_host_hosting words gid pick i w r :
  existsb (fun rg => channelID (snd rg) =? channel_id i) (games_values w) = false ->
  dict_get (user i) (games w) = Some r ->
  userGameInstanceCreation words gid pick i w = (w, Ok HostAlreadyHosting).
Proof.
  intros H1 H2. unfold userGameInstanceCreation. rewrite H1, H2. reflexivity.
Qed.

Lemma create_free_raises words gid pick i w :
  existsb (fun rg => channelID (snd rg) =? channel_id i) (games_values w) = false ->
  dict_get (user i) (games w) = None ->
  userGameInstanceCreation words gid pick i w = (w, Raise AttributeError).
Proof.
  intros H1 H2. unfold userGameInstanceCreation.
  rewrite H1, H2, wordbombGame_init_raises. reflexivity.
Qed.

(** C1. A create request for a free room by a user who hosts nothing does
    not produce a session: building the game object reads
    [Data.easy_starters], which [class Data] never defines, so the call
    raises [AttributeError] before anything is registered.  Shown on the
    empty registry, and in general: no request is ever answered with a
    created session, and every request leaves the registry as it was. *)
Theorem create_raises_AttributeError :
  userGameInstanceCreation small_words 42 0 create_press empty_world
    = (empty_world, Raise AttributeError)
  /\ forall words gid pick i w,
       fst (userGameInstanceCreation words gid pick i w) = w
       /\ forall r, snd (userGameInstanceCreation words gid pick i w)
                    <> Ok (Created r).
Proof.
  split; [reflexivity |].
  intros words gid pick i w. unfold userGameInstanceCreation.
  rewrite wordbombGame_init_raises.
  destruct (existsb _ _); [split; [reflexivity | discriminate] |].
  destruct (dict_get _ _); split; try reflexivity; discriminate.
Qed.

(** ** The answered path *)

(** [lower] keeps the length, is idempotent, and folds accented capitals:
    code points 192 and 66 (capital A with grave, B) become 224 and 98. *)
Lemma lower_length (s : string) : String.length (lower s) = String.length s.
Proof. induction s as [| c s IH]; simpl; [reflexivity | rewrite IH; reflexivity]. Qed.

Lemma lower_char_idempotent (c : ascii) : lower_char (lower_char c) = lower_char c.
Proof. destruct c as [[] [] [] [] [] [] [] []]; reflexivity. Qed.

Lemma lower_idempotent (s : string) : lower (lower s) = lower s.
Proof.
  induction s as [| c s IH]; simpl; [reflexivity |].
  rewrite lower_char_idempotent, IH. reflexivity.
Qed.

Lemma lower_accented :
  lower (String (ascii_of_nat 192) "B") = String (ascii_of_nat 224) "b".
Proof. reflexivity. Qed.

Lemma accepts_true_iff (words : gset string) (g : wordbombGame) (w : string) :
  accepts words g w = true <->
  (2 <= String.length w)%nat /\ (w ∉ used_words g)
  /\ startswith w (lower (currentStarter g)) = true /\ w ∈ words.
Proof.
  unfold accepts.
  rewrite negb_true_iff, !orb_false_iff, !negb_false_iff.
  rewrite Nat.ltb_ge, bool_decide_eq_false, bool_decide_eq_true.
  tauto.
Qed.

Lemma accepts_false_iff (words : gset string) (g : wordbombGame) (w : string) :
  accepts words g w = false <->
  ~ ((2 <= String.length w)%nat /\ (w ∉ used_words g)
     /\ startswith w (lower (currentStarter g)) = true /\ w ∈ words).
Proof.
  rewrite <- accepts_true_iff. destruct (accepts words g w); split; intros H;
    try reflexivity; try discriminate; try (intros H'; discriminate).
  exfalso. apply H. reflexivity.
Qed.

(** An accepted answer is applied at once and the elimination test
    follows. *)
Lemma resolve_accepted words pick g m :
  responded g = true -> response g = Some m ->
  accepts words g (lower (content m)) = true ->
  resolve words pick g
    = eliminate_check words pick (accept_answer (lower (content m)) g).
Proof. intros H1 H2 H3. unfold resolve. rewrite H1, H2, H3. reflexivity. Qed.

(** ** Joining *)

Lemma find_skip {A : Type} (P : A -> bool) (l l' : list A) (y : A) :
  (forall x, In x l -> P x = false) -> P y = true ->
  List.find P (l ++ y :: l') = Some y.
Proof.
  intros Hl Hy. induction l as [| x l IH]; simpl.
  - rewrite Hy. reflexivity.
  - rewrite (Hl x (or_introl eq_refl)). apply IH.
    intros z Hz. apply Hl. right. exact Hz.
Qed.

Lemma games_values_split (w : world) pre post (h : Z) (r : ref) g :
  games w = pre ++ (h, r) :: post ->
  heap w !! r = Some g ->
  exists vpre vpost,
    games_values w = vpre ++ (r, g) :: vpost
    /\ forall r' g', In (r', g') vpre ->
         heap w !! r' = Some g' /\ exists k, (k, r') ∈ pre.
Proof.
  intros Hg Hr. unfold games_values. rewrite Hg, omap_app. simpl. rewrite Hr.
  eexists _, _. split; [reflexivity |].
  intros r' g' Hin. apply list_elem_of_In, list_elem_of_omap in Hin.
  destruct Hin as [[k r''] [Hin Heq]]. simpl in Heq.
  destruct (heap w !! r'') eqn:E; [| discriminate].
  injection Heq as -> ->. split; [exact E | exists k; exact Hin].
Qed.

(** C10, as amended.  Let a session be registered in [games] and be the
    first entry of [games] with its [gameID].  Whatever the values of
    [running], [stage], [countdown] or the message handles (so in every
    phase, game over included), a join press with that id from a user who
    is not in the roster leaves the session with the roster it had followed
    by one new entry: the user's identity, status "Player", 2 lives.  Every
    other attribute of the session, every other game object and the
    registry are as before. *)
Theorem joinGame_appends (w : world) (i : Interaction)
    (pre post : list (Z * ref)) (h : Z) (r : ref) (g : wordbombGame) :
  games w = pre ++ (h, r) :: post ->
  heap w !! r = Some g ->
  custom_id i = str (gameID g) ->
  (forall k r' g', (k, r') ∈ pre -> heap w !! r' = Some g' ->
                   str (gameID g') <> custom_id i) ->
  (forall p, In p (players g) -> id p <> user i) ->
  let w' := fst (joinGame i w) in
  games w' = games w
  /\ List.length (heap w') = List.length (heap w)
  /\ (forall r', r' <> r -> heap w' !! r' = heap w !! r')
  /\ (snd (joinGame i w) = Ok (Joined r)
      \/ snd (joinGame i w) = Raise AttributeError)
  /\ exists g',
       heap w' !! r = Some g'
       /\ players g'
          = players g ++ [{| id := user i; status := "Player"; hearts := 2 |}]
       /\ same_but_players g g'.
Proof.
  intros Hg Hr Hid Hpre Hnew.
  destruct (games_values_split w pre post h r g Hg Hr) as (vpre & vpost & Hv & Hvpre).
  unfold joinGame. rewrite Hv.
  rewrite (find_skip _ vpre vpost (r, g)).
  - assert (Hex : existsb (fun p => id p =? user i) (players g) = false).
    { apply not_true_is_false. intros Hex. apply existsb_exists in Hex.
      destruct Hex as (p & Hin & Hp). apply Z.eqb_eq in Hp.
      exact (Hnew p Hin Hp). }
    rewrite Hex.
    assert (Hlt : (r < List.length (heap w))%nat) by (eapply lookup_lt_Some, Hr).
    destruct (join_msg _); cbn [fst snd store games heap];
      (split; [reflexivity |]);
      (split; [apply length_insert |]);
      (split; [intros r' Hne; apply list_lookup_insert_ne; congruence |]);
      (split; [auto |]);
      (eexists; split; [apply list_lookup_insert_eq, Hlt |]);
      repeat split.
  - intros [r' g'] Hin. simpl. apply String.eqb_neq.
    destruct (Hvpre r' g' Hin) as [Hh [k Hk]]. exact (Hpre k r' g' Hk Hh).
  - simpl. apply String.eqb_eq. symmetry. exact Hid.
Qed.

(** The theorem at the lobby session of user 1, joined by user 2. *)
Lemma joinGame_appends_witness :
  let w' := fst (joinGame (join_press 2) lobby_world) in
  games w' = [(1, 0%nat)]
  /\ List.length (heap w') = 1%nat
  /\ (forall r', r' <> 0%nat -> heap w' !! r' = heap lobby_world !! r')
  /\ (snd (joinGame (join_press 2) lobby_world) = Ok (Joined 0%nat)
      \/ snd (joinGame (join_press 2) lobby_world) = Raise AttributeError)
  /\ exists g',
       heap w' !! 0%nat = Some g'
       /\ players g'
          = [{| id := 1; status := "Owner"; hearts := 2 |}]
              ++ [{| id := 2; status := "Player"; hearts := 2 |}]
       /\ same_but_players lobby_game g'.
Proof.
  refine (joinGame_appends lobby_world (join_press 2) [] [] 1 0%nat lobby_game
            _ _ _ _ _).
  - reflexivity.
  - reflexivity.
  - reflexivity.
  - intros k r' g' Hin. inversion Hin.
  - intros p [<- | []]. simpl. lia.
Defined.

(** C10 as stated fails.  The host stops the game of users 1 and 2 at the
    table: the session is no longer in [games], its coroutine goes on and
    [running] is still set.  User 3, who is not in the roster, presses the
    session's join button: the answer is "game not found" and nothing
    changes.  And of two registered lobbies that drew the same [gameID],
    the join button of the second adds the player to the first: the second
    session is as it was. *)
Lemma join_press_misses_session :
  (game_of stopped_table = Some table_game
   /\ sys_pc stopped_table = AwaitEditNextup
   /\ running table_game = true
   /\ str (gameID table_game) = custom_id (join_press 3)
   /\ (forall p, In p (players table_game) -> id p <> user (join_press 3))
   /\ joinGame (join_press 3) (sys_world stopped_table)
      = (sys_world stopped_table, Ok GameNotFound))
  /\ (heap twin_world !! 1%nat = Some twin_game
      /\ (5, 1%nat) ∈ games twin_world
      /\ str (gameID twin_game) = custom_id (join_press 3)
      /\ (forall p, In p (players twin_game) -> id p <> user (join_press 3))
      /\ heap (fst (joinGame (join_press 3) twin_world)) !! 1%nat
         = Some twin_game
      /\ (players <$> heap (fst (joinGame (join_press 3) twin_world)) !! 0%nat)
         = Some [{| id := 1; status := "Owner"; hearts := 2 |};
                 {| id := 3; status := "Player"; hearts := 2 |}]).
Proof.
  split.
  - split; [vm_compute; reflexivity |].
    split; [vm_compute; reflexivity |].
    split; [reflexivity |].
    split; [vm_compute; reflexivity |].
    split; [| vm_compute; reflexivity].
    intros p [<- | [<- | []]]; vm_compute; discriminate.
  - split; [reflexivity |].
    split; [right; left |].
    split; [vm_compute; reflexivity |].
    split; [| split; vm_compute; reflexivity].
    intros p [<- | []]; vm_compute; discriminate.
Qed.

(** ** Stopping *)

Lemma stopgame_keeps_heap (i : Interaction) (w : world) :
  heap (fst (stopgame i w)) = heap w.
Proof.
  unfold stopgame. destruct (dict_get _ _); [| reflexivity].
  destruct (heap w !! _) as [g |]; [| reflexivity].
  destruct (main_msg g); reflexivity.
Qed.

(** C3 fails on the code.  Users 1 and 2 play; the host's stop command
    arrives while the coroutine sleeps in the per-turn wait.  The command
    is answered "stopped" and the registry entry is deleted, but the game
    object is untouched ([running] is still set), so the coroutine goes on:
    the wait runs out, user 1 loses a life, and the next turn is
    announced. *)
Theorem stopgame_leaves_loop_running :
  let waiting := run small_words (through_countdown ++ resumes 11) duel in
  let stopped :=
    step small_words (Deliver (StopCommand (stop_command 1))) waiting in
  let later := run small_words (resumes 72) stopped in
  sys_pc waiting = AwaitPoll
  /\ snd (stopgame (stop_command 1) (sys_world waiting)) = Ok Stopped
  /\ games (sys_world stopped) = []
  /\ running <$> game_of stopped = Some true
  /\ hearts_of stopped = Some [(1, 2); (2, 2)]
  /\ hearts_of later = Some [(1, 1); (2, 2)]
  /\ currentPlayerIndex <$> game_of later = Some 1%nat
  /\ running <$> game_of later = Some true
  /\ sys_pc later = AwaitEditNextup.
Proof. intros. repeat apply conj; vm_compute; reflexivity. Qed.

(** ** Prefix tables *)

Lemma substring_one_length (n : nat) (s : string) :
  (n < String.length s)%nat -> String.length (String.substring n 1 s) = 1%nat.
Proof.
  revert n. induction s as [| c s IH]; intros n Hn; simpl in *; [lia |].
  destruct n as [| n]; simpl.
  - destruct s; reflexivity.
  - apply IH. lia.
Qed.

(** What the table of [main.py] holds: single characters. *)
Lemma starters_at_spec (words : gset string) (i : nat) (s : string) :
  In s (starters_at words i) <->
  exists word, word ∈ words /\ (i - 1 < String.length word)%nat
               /\ s = String.substring (i - 1) 1 word.
Proof.
  unfold starters_at. rewrite in_map_iff. split.
  - intros (word & <- & Hin). apply filter_In in Hin. destruct Hin as [Hin Hlen].
    exists word. repeat split.
    + apply elem_of_elements, list_elem_of_In, Hin.
    + apply Nat.ltb_lt, Hlen.
  - intros (word & Hin & Hlen & ->). exists word. split; [reflexivity |].
    apply filter_In. split.
    + apply list_elem_of_In, elem_of_elements, Hin.
    + apply Nat.ltb_lt, Hlen.
Qed.

Lemma starters_at_length (words : gset string) (i : nat) (s : string) :
  In s (starters_at words i) -> String.length s = 1%nat.
Proof.
  intros H. apply starters_at_spec in H. destruct H as (word & _ & Hlen & ->).
  apply substring_one_length, Hlen.
Qed.

(** C4 fails on the code.  The table of [main.py] takes [word[i - 1]], the
    [i]-th character, where [generate_starters.py] takes a slice.  With the
    dictionary {ab, abc} the table for length 2 holds "b" twice: one
    character, not the first two characters of any word, and no word begins
    with it; a turn at stage 2 is given that prefix.  The slices of
    [generate_starters.py] for the same length are "ab". *)
Theorem stage_two_starters_are_second_letters :
  stageStartersRelation small_words 2 = Some ["b"%string; "b"%string]
  /\ String.length "b" = 1%nat
  /\ (forall word, word ∈ small_words ->
        String.substring 0 2 word <> "b"%string
        /\ startswith word "b" = false)
  /\ (let g := set_plays 10 (set_main_msg (Some 101%nat) lobby_game) in
      snd (advance small_words 0 g) = AwaitEditNextup
      /\ stage (fst (advance small_words 0 g)) = 2
      /\ currentStarter (fst (advance small_words 0 g)) = "b"%string)
  /\ dic small_words 2 = Some ["ab"%string; "ab"%string].
Proof.
  repeat apply conj; try (vm_compute; reflexivity).
  intros word H. unfold small_words in H.
  apply elem_of_union in H. destruct H as [H | H];
    apply elem_of_singleton in H; subst word;
    (split; [discriminate | reflexivity]).
Qed.

(** ** Starting *)

Lemma fresh_stage (uid cid gid : Z) (starter : string) :
  stage (init_fields uid cid gid starter) = 1.
Proof. reflexivity. Qed.

(** C5 fails on the code.  On the session as [__init__] leaves it (stage
    1), the start button answers "already started" to a user who is not the
    host, before the host test is reached, and has by then set
    [singleplayer] on the one-player roster; the host gets the same answer,
    so no countdown begins. *)
Theorem start_press_in_lobby_is_already_started :
  lobby_game = set_join_msg (Some 100%nat) (init_fields 1 10 42 "a")
  /\ singleplayer lobby_game = false
  /\ startGameCountdown (start_press 2) lobby_world
       = (store 0%nat (set_singleplayer true lobby_game) lobby_world,
          Ok AlreadyStarted)
  /\ startGameCountdown (start_press 1) lobby_world
       = (store 0%nat (set_singleplayer true lobby_game) lobby_world,
          Ok AlreadyStarted).
Proof. repeat apply conj; reflexivity. Qed.

(** ** Lives *)

(** C6 fails on the code.  User 1 is down to one life and lets the clock
    run out: the life is taken and the coroutine pauses.  A wrong word sent
    by user 1 during that pause is recorded as the answer of the turn, and
    the answered path takes a second life.  The turn ends with user 1 in
    the roster at -1 lives, and the next player is announced. *)
Theorem late_answer_takes_a_second_life :
  let timed_out :=
    run small_words
      (through_countdown ++ silent_turn ++ answered_turn (say 2 "ab")
         ++ until_timeout) duel in
  let resolved :=
    run small_words ([Deliver (MessageSent (say 1 "zz"))] ++ resumes 3)
      timed_out in
  sys_pc timed_out = AwaitTimeoutPause
  /\ hearts_of timed_out = Some [(1, 0); (2, 2)]
  /\ hearts_of resolved = Some [(1, -1); (2, 2)]
  /\ currentPlayerIndex <$> game_of resolved = Some 1%nat
  /\ sys_pc resolved = AwaitEditNextup.
Proof. intros. repeat apply conj; vm_compute; reflexivity. Qed.

(** ** The empty roster *)

Lemma advance_empty_roster (words : gset string) (pick : nat) (g : wordbombGame)
    (t : float) (s : string) (l : list string) :
  players g = [] ->
  timeStageRelation (Z.min 7 (plays g / 10 + 1)) = Some t ->
  stageStartersRelation words (Z.min 7 (plays g / 10 + 1)) = Some (s :: l) ->
  snd (advance words pick g) = Crashed ZeroDivisionError.
Proof.
  intros Hp Ht Hs. unfold advance. simpl. rewrite Ht. simpl. rewrite Hs.
  simpl. rewrite Hp. reflexivity.
Qed.

(** C8 fails on the code.  In a single-player session the sole player runs
    out of lives and is popped; the win test does not apply to an empty
    roster, so the advance step runs with no player left and
    [(currentPlayerIndex + 1) % len(players)] raises [ZeroDivisionError];
    the empty-roster exit at the top of the loop is never reached. *)
Theorem solo_elimination_divides_by_zero :
  let dead :=
    run small_words
      (through_countdown ++ silent_turn ++ until_timeout ++ resumes 2) solo in
  let after := run small_words (resumes 1) dead in
  singleplayer <$> game_of dead = Some true
  /\ hearts_of dead = Some []
  /\ sys_pc dead = AwaitDiedPause
  /\ sys_pc after = Crashed ZeroDivisionError
  /\ running <$> game_of after = Some true.
Proof. intros. repeat apply conj; vm_compute; reflexivity. Qed.

(** ** Game over and the registry *)

Lemma resume_keeps_registry (words : gset string) (pick : nat) (s : system) :
  games (sys_world (step words (Resume pick) s)) = games (sys_world s).
Proof.
  unfold step. destruct (heap (sys_world s) !! sys_task s); reflexivity.
Qed.

(** C9 fails on the code.  User 1 is eliminated, user 2 wins, [gameOver]
    runs once and the coroutine returns; resuming it again does nothing.
    But [gameOver] only clears [running]: the entry stays in [games], so a
    new game in room 10 is refused as "room occupied" and user 1 is refused
    as "already hosting". *)
Theorem game_over_keeps_the_registry_entry :
  let over :=
    run small_words
      (through_countdown ++ silent_turn ++ silent_turn ++ until_timeout
         ++ resumes 5) duel in
  sys_pc over = Returned
  /\ running <$> game_of over = Some false
  /\ gameOver_winner <$> game_of over = Some (Some 2)
  /\ step small_words (Resume 0) over = over
  /\ games (sys_world over) = [(1, 0%nat)]
  /\ snd (userGameInstanceCreation small_words 7 0
            {| user := 3; channel_id := 10; custom_id := ""; reply := 5%nat |}
            (sys_world over)) = Ok RoomOccupied
  /\ snd (userGameInstanceCreation small_words 7 0
            {| user := 1; channel_id := 11; custom_id := ""; reply := 5%nat |}
            (sys_world over)) = Ok HostAlreadyHosting.
Proof. intros. repeat apply conj; vm_compute; reflexivity. Qed.

(** * Further properties of the handlers *)

(** ** The registry under [stopgame] *)

Lemma dict_get_del (k u : Z) (d : list (Z * ref)) :
  dict_get k (dict_del u d) = if k =? u then None else dict_get k d.
Proof.
  induction d as [| [k' r] d IH]; simpl.
  - destruct (k =? u); reflexivity.
  - destruct (k' =? u) eqn:Eu; simpl.
    + rewrite IH. destruct (k =? u) eqn:Ek; [reflexivity |].
      apply Z.eqb_eq in Eu. subst k'.
      rewrite Z.eqb_sym, Ek. reflexivity.
    + rewrite IH. destruct (k' =? k) eqn:Ek'; [| reflexivity].
      apply Z.eqb_eq in Ek'. subst k'. rewrite Eu. reflexivity.
Qed.

Lemma dict_del_absent (k : Z) (d : list (Z * ref)) :
  dict_get k d = None -> dict_del k d = d.
Proof.
  induction d as [| [k' r] d IH]; simpl; [reflexivity |].
  destruct (k' =? k) eqn:E; [discriminate |]. simpl.
  intros H. rewrite (IH H). reflexivity.
Qed.

(** What [stopgame] leaves behind does not depend on how it ends. *)
Lemma stopgame_fst (i : Interaction) (w : world) :
  fst (stopgame i w)
    = {| games := dict_del (user i) (games w); heap := heap w |}.
Proof.
  unfold stopgame. destruct (dict_get (user i) (games w)) as [r |] eqn:E.
  - destruct (heap w !! r) as [g |]; [| reflexivity].
    destruct (main_msg g); reflexivity.
  - rewrite (dict_del_absent _ _ E). destruct w; reflexivity.
Qed.

(** X1.  However [stopgame] ends (with its reply, with [KeyError], or with
    [AttributeError] on a game that has no main message yet), afterwards
    the caller hosts nothing, every other host's entry is as before, and no
    game object has been touched. *)
Theorem stopgame_releases_caller (i : Interaction) (w : world) :
  dict_get (user i) (games (fst (stopgame i w))) = None
  /\ (forall k, k <> user i ->
        dict_get k (games (fst (stopgame i w))) = dict_get k (games w))
  /\ heap (fst (stopgame i w)) = heap w.
Proof.
  rewrite stopgame_fst. simpl. rewrite dict_get_del, Z.eqb_refl.
  repeat split. intros k Hk. rewrite dict_get_del.
  apply Z.eqb_neq in Hk. rewrite Hk. reflexivity.
Qed.

Lemma stopgame_releases_caller_witness :
  dict_get 1 (games (fst (stopgame (stop_command 1) lobby_world))) = None
  /\ (forall k, k <> 1 ->
        dict_get k (games (fst (stopgame (stop_command 1) lobby_world)))
        = dict_get k (games lobby_world))
  /\ heap (fst (stopgame (stop_command 1) lobby_world)) = heap lobby_world.
Proof. apply (stopgame_releases_caller (stop_command 1) lobby_world). Defined.

(** X2.  A second [stopgame] by the same user raises [KeyError] and changes
    nothing: the command is not idempotent. *)
Theorem stopgame_twice_raises (i : Interaction) (w : world) :
  stopgame i (fst (stopgame i w)) = (fst (stopgame i w), Raise KeyError).
Proof.
  assert (H : dict_get (user i) (games (fst (stopgame i w))) = None).
  { rewrite stopgame_fst. simpl. rewrite dict_get_del, Z.eqb_refl. reflexivity. }
  unfold stopgame at 1. rewrite H. reflexivity.
Qed.

(** ** What a chat message can change *)

Lemma message_effect_refl (m : Message) (g : wordbombGame) : message_effect m g g.
Proof. left. reflexivity. Qed.

Lemma message_effect_trans (m : Message) (g1 g2 g3 : wordbombGame) :
  message_effect m g1 g2 -> message_effect m g2 g3 -> message_effect m g1 g3.
Proof.
  intros [-> | ->] [-> | ->]; try (left; reflexivity); right; reflexivity.
Qed.

Lemma on_message_game_effect (m : Message) (g g' : wordbombGame) :
  on_message_game m g = Ok g' -> message_effect m g g'.
Proof.
  unfold on_message_game. intros H.
  destruct (channelID g =? channel m); [| injection H as <-; left; reflexivity].
  destruct (existsb _ _); [| injection H as <-; left; reflexivity].
  destruct (players g !! currentPlayerIndex g) as [p |]; [| discriminate].
  destruct (id p =? author m); injection H as <-; [right | left]; reflexivity.
Qed.

Lemma Forall2_update {A : Type} (R : A -> A -> Prop) (h : list A) (r : nat)
    (x y : A) :
  (forall a, R a a) -> h !! r = Some x -> R x y -> Forall2 R h (<[r := y]> h).
Proof.
  intros Hrefl Hx Hxy.
  rewrite <- (list_insert_id h r x Hx) at 1.
  apply Forall2_insert; [| exact Hxy].
  apply Forall_Forall2_diag, Forall_forall. intros a _. apply Hrefl.
Qed.

Lemma on_message_loop_effect (m : Message) (rs : list (Z * ref))
    (h : list wordbombGame) :
  Forall2 (message_effect m) h (fst (on_message_loop m rs h)).
Proof.
  revert h. induction rs as [| [k r] rs IH]; intros h; simpl.
  - apply Forall_Forall2_diag, Forall_forall. intros a _. apply message_effect_refl.
  - destruct (h !! r) as [g |] eqn:Hr; [| apply IH].
    destruct (on_message_game m g) as [g' | e] eqn:Hg; simpl.
    + eapply Forall2_trans; [apply message_effect_trans | | apply IH].
      eapply Forall2_update; [apply message_effect_refl | exact Hr |].
      apply on_message_game_effect, Hg.
    + apply Forall_Forall2_diag, Forall_forall. intros a _.
      apply message_effect_refl.
Qed.

(** X3.  Whatever the message and whether or not the handler fails, [on_message]
    keeps the registry, and leaves each game object either as it was or
    with exactly this message as its pending answer: rosters, lives,
    [plays], [used_words], stage and prefix are never touched. *)
Theorem on_message_only_records (m : Message) (w : world) :
  games (fst (on_message m w)) = games w
  /\ Forall2 (message_effect m) (heap w) (heap (fst (on_message m w))).
Proof. split; [reflexivity | apply on_message_loop_effect]. Qed.

Lemma on_message_loop_other_refs (m : Message) (rs : list (Z * ref))
    (h : list wordbombGame) (r : ref) :
  r ∉ rs.*2 -> fst (on_message_loop m rs h) !! r = h !! r.
Proof.
  revert h. induction rs as [| [k r'] rs IH]; intros h Hr; simpl; [reflexivity |].
  apply not_elem_of_cons in Hr. destruct Hr as [Hne Hr].
  destruct (h !! r') as [g |]; [| apply IH, Hr].
  destruct (on_message_game m g) as [g' | e]; simpl; [| reflexivity].
  rewrite IH by exact Hr. apply list_lookup_insert_ne.
  simpl in Hne. congruence.
Qed.

Lemma on_message_loop_other_room (m : Message) (rs : list (Z * ref))
    (h : list wordbombGame) :
  (forall k r g, (k, r) ∈ rs -> h !! r = Some g -> channelID g <> channel m) ->
  on_message_loop m rs h = (h, Ok tt).
Proof.
  induction rs as [| [k r] rs IH]; intros H; simpl; [reflexivity |].
  assert (IH' : on_message_loop m rs h = (h, Ok tt)).
  { apply IH. intros k' r' g' Hin. apply (H k'). right. exact Hin. }
  destruct (h !! r) as [g |] eqn:Hr; [| exact IH'].
  unfold on_message_game.
  assert (Hc : (channelID g =? channel m) = false).
  { apply Z.eqb_neq. apply (H k r g); [left | exact Hr]. }
  rewrite Hc.
  assert (E : <[r := g]> h = h) by apply list_insert_id, Hr.
  rewrite E. exact IH'.
Qed.

(** X4.  A message in a room where no registered game is hosted changes
    nothing and raises nothing. *)
Theorem on_message_other_room (m : Message) (w : world) :
  (forall k r g, (k, r) ∈ games w -> heap w !! r = Some g ->
                 channelID g <> channel m) ->
  on_message m w = (w, Ok tt).
Proof.
  intros H. unfold on_message. rewrite on_message_loop_other_room by exact H.
  destruct w; reflexivity.
Qed.

Lemma on_message_other_room_witness :
  on_message {| author := 1; channel := 11; content := "ab" |} lobby_world
    = (lobby_world, Ok tt).
Proof.
  apply on_message_other_room.
  intros k r g Hin Hr. apply list_elem_of_singleton in Hin.
  injection Hin as -> ->. injection Hr as <-. simpl. lia.
Defined.

Lemma dict_del_refs (u : Z) (d : list (Z * ref)) (r : ref) :
  NoDup d.*2 -> dict_get u d = Some r -> r ∉ (dict_del u d).*2.
Proof.
  induction d as [| [k x] d IH]; simpl; intros Hnd Hget; [discriminate |].
  apply NoDup_cons in Hnd. destruct Hnd as [Hx Hnd].
  destruct (k =? u) eqn:Ek; simpl.
  - injection Hget as ->. intros Hin. apply Hx.
    apply list_elem_of_fmap in Hin. destruct Hin as ([k' r''] & -> & Hin).
    unfold dict_del in Hin. apply list_elem_of_In, filter_In in Hin.
    destruct Hin as [Hin _]. apply list_elem_of_fmap.
    exists (k', r''). split; [reflexivity | apply list_elem_of_In, Hin].
  - intros Hin. apply elem_of_cons in Hin. destruct Hin as [-> | Hin].
    + apply Hx. clear -Hget. induction d as [| [k' y] d IH]; [discriminate |].
      simpl in Hget. destruct (k' =? u).
      * injection Hget as ->. left.
      * right. apply IH, Hget.
    + exact (IH Hnd Hget Hin).
Qed.

(** X5.  Once its host has issued [stopgame], a game object is out of reach of
    chat messages: when the registry holds each object once, no later
    message changes the stopped game, whoever sends it. *)
Theorem on_message_after_stop (i : Interaction) (m : Message) (w : world)
    (r : ref) :
  NoDup (games w).*2 ->
  dict_get (user i) (games w) = Some r ->
  heap (fst (on_message m (fst (stopgame i w)))) !! r = heap w !! r.
Proof.
  intros Hnd Hget.
  assert (Hs : fst (stopgame i w)
               = {| games := dict_del (user i) (games w); heap := heap w |}).
  { unfold stopgame. rewrite Hget.
    destruct (heap w !! r) as [g |]; [| reflexivity].
    destruct (main_msg g); reflexivity. }
  rewrite Hs. unfold on_message. simpl.
  apply on_message_loop_other_refs.
  eapply dict_del_refs; [exact Hnd | exact Hget].
Qed.

Lemma on_message_after_stop_witness :
  heap (fst (on_message (say 1 "ab") (fst (stopgame (stop_command 1) lobby_world))))
    !! 0%nat = heap lobby_world !! 0%nat.
Proof.
  apply on_message_after_stop.
  - simpl. apply NoDup_singleton.
  - reflexivity.
Defined.

(** ** Button presses *)

Lemma find_nothing {A : Type} (P : A -> bool) (l : list A) :
  (forall x, In x l -> P x = false) -> List.find P l = None.
Proof.
  induction l as [| x l IH]; intros H; simpl; [reflexivity |].
  rewrite (H x (or_introl eq_refl)). apply IH. intros y Hy. apply H. right. exact Hy.
Qed.

Lemma games_values_registered (w : world) (r : ref) (g : wordbombGame) :
  In (r, g) (games_values w) ->
  heap w !! r = Some g /\ exists k, (k, r) ∈ games w.
Proof.
  intros Hin. apply list_elem_of_In, list_elem_of_omap in Hin.
  destruct Hin as [[k r'] [Hin Heq]]. simpl in Heq.
  destruct (heap w !! r') eqn:E; [| discriminate].
  injection Heq as -> ->. split; [exact E | exists k; exact Hin].
Qed.

Lemma join_lookup (w : world) (i : Interaction) (pre post : list (Z * ref))
    (h : Z) (r : ref) (g : wordbombGame) :
  games w = pre ++ (h, r) :: post ->
  heap w !! r = Some g ->
  custom_id i = str (gameID g) ->
  (forall k r' g', (k, r') ∈ pre -> heap w !! r' = Some g' ->
                   str (gameID g') <> custom_id i) ->
  List.find (fun rg => String.eqb (str (gameID (snd rg))) (custom_id i))
            (games_values w) = Some (r, g).
Proof.
  intros Hg Hr Hid Hpre.
  destruct (games_values_split w pre post h r g Hg Hr) as (vpre & vpost & Hv & Hvpre).
  rewrite Hv. apply find_skip.
  - intros [r' g'] Hin. simpl. apply String.eqb_neq.
    destruct (Hvpre r' g' Hin) as [Hh [k Hk]]. exact (Hpre k r' g' Hk Hh).
  - simpl. apply String.eqb_eq. symmetry. exact Hid.
Qed.

(** X6.  A join press by a user who is already in the roster of the session it
    reaches is answered "already joined" and changes nothing. *)
Theorem joinGame_already_joined (w : world) (i : Interaction)
    (pre post : list (Z * ref)) (h : Z) (r : ref) (g : wordbombGame) (p : Player) :
  games w = pre ++ (h, r) :: post ->
  heap w !! r = Some g ->
  custom_id i = str (gameID g) ->
  (forall k r' g', (k, r') ∈ pre -> heap w !! r' = Some g' ->
                   str (gameID g') <> custom_id i) ->
  In p (players g) -> id p = user i ->
  joinGame i w = (w, Ok AlreadyJoined).
Proof.
  intros Hg Hr Hid Hpre Hin Hp. unfold joinGame.
  rewrite (join_lookup w i pre post h r g Hg Hr Hid Hpre).
  assert (Hex : existsb (fun q => id q =? user i) (players g) = true).
  { apply existsb_exists. exists p. split; [exact Hin | apply Z.eqb_eq, Hp]. }
  rewrite Hex. reflexivity.
Qed.

Lemma joinGame_already_joined_witness :
  joinGame (join_press 1) lobby_world = (lobby_world, Ok AlreadyJoined).
Proof.
  refine (joinGame_already_joined lobby_world (join_press 1) [] [] 1 0%nat
            lobby_game (Player_init 1 "Owner") _ _ _ _ _ _).
  - reflexivity.
  - reflexivity.
  - reflexivity.
  - intros k r' g' Hin. inversion Hin.
  - left. reflexivity.
  - reflexivity.
Defined.

(** X7.  Joining is absorbed the second time: after a press that added the user,
    the same press is answered "already joined" and leaves the world as the
    first press left it. *)
Theorem joinGame_twice (w : world) (i : Interaction)
    (pre post : list (Z * ref)) (h : Z) (r : ref) (g : wordbombGame) :
  games w = pre ++ (h, r) :: post ->
  heap w !! r = Some g ->
  custom_id i = str (gameID g) ->
  (forall k r' g', (k, r') ∈ pre -> heap w !! r' = Some g' ->
                   str (gameID g') <> custom_id i) ->
  (forall p, In p (players g) -> id p <> user i) ->
  joinGame i (fst (joinGame i w)) = (fst (joinGame i w), Ok AlreadyJoined).
Proof.
  intros Hg Hr Hid Hpre Hnew.
  set (joined := set_players (players g ++ [Player_init (user i) default_status]) g).
  assert (Hfst : fst (joinGame i w) = store r joined w).
  { unfold joinGame.
    rewrite (join_lookup w i pre post h r g Hg Hr Hid Hpre).
    assert (Hex : existsb (fun q => id q =? user i) (players g) = false).
    { apply not_true_is_false. intros Hex. apply existsb_exists in Hex.
      destruct Hex as (q & Hin & Hq). apply Z.eqb_eq in Hq.
      exact (Hnew q Hin Hq). }
    rewrite Hex. fold joined. destruct (join_msg joined); reflexivity. }
  rewrite Hfst.
  assert (Hlt : (r < List.length (heap w))%nat) by (eapply lookup_lt_Some, Hr).
  unfold joinGame at 1.
  rewrite (join_lookup (store r joined w) i pre post h r joined).
  - assert (Hex : existsb (fun q => id q =? user i) (players joined) = true).
    { apply existsb_exists. exists (Player_init (user i) default_status).
      split; [| apply Z.eqb_eq; reflexivity].
      simpl. apply in_or_app. right. left. reflexivity. }
    rewrite Hex. reflexivity.
  - exact Hg.
  - simpl. apply list_lookup_insert_eq, Hlt.
  - exact Hid.
  - intros k r' g' Hin Hr'. simpl in Hr'.
    destruct (decide (r' = r)) as [-> | Hne].
    + intros _. exact (Hpre k r g Hin Hr (eq_sym Hid)).
    + rewrite list_lookup_insert_ne in Hr' by congruence.
      exact (Hpre k r' g' Hin Hr').
Qed.

Lemma joinGame_twice_witness :
  joinGame (join_press 2) (fst (joinGame (join_press 2) lobby_world))
    = (fst (joinGame (join_press 2) lobby_world), Ok AlreadyJoined).
Proof.
  refine (joinGame_twice lobby_world (join_press 2) [] [] 1 0%nat lobby_game
            _ _ _ _ _).
  - reflexivity.
  - reflexivity.
  - reflexivity.
  - intros k r' g' Hin. inversion Hin.
  - intros p [<- | []]. simpl. lia.
Defined.

(** X8.  A press whose [custom_id] is the id of no registered game changes
    nothing: the join handler answers "not found", the start handler
    answers nothing at all. *)
Theorem unknown_button_changes_nothing (w : world) (i : Interaction) :
  (forall k r g, (k, r) ∈ games w -> heap w !! r = Some g ->
     str (gameID g) <> custom_id i
     /\ (str (gameID g) ++ "###")%string <> custom_id i) ->
  joinGame i w = (w, Ok GameNotFound)
  /\ startGameCountdown i w = (w, Ok NoSuchButton).
Proof.
  intros H. unfold joinGame, startGameCountdown.
  rewrite !find_nothing; [split; reflexivity | |].
  - intros [r g] Hin. simpl. apply String.eqb_neq.
    destruct (games_values_registered w r g Hin) as [Hr [k Hk]].
    apply (H k r g Hk Hr).
  - intros [r g] Hin. simpl. apply String.eqb_neq.
    destruct (games_values_registered w r g Hin) as [Hr [k Hk]].
    apply (H k r g Hk Hr).
Qed.

(** The theorem at [lobby_world], whose only game has id 42, for a button
    with id 7. *)
Lemma unknown_button_changes_nothing_witness :
  joinGame (stale_press 2) lobby_world = (lobby_world, Ok GameNotFound)
  /\ startGameCountdown (stale_press 2) lobby_world
     = (lobby_world, Ok NoSuchButton).
Proof.
  apply unknown_button_changes_nothing.
  intros k r g Hin Hr. apply list_elem_of_singleton in Hin.
  injection Hin as -> ->. injection Hr as <-.
  split; vm_compute; discriminate.
Defined.

(** X9.  A countdown is begun for the host only, and never for a game at stage
    1: whenever the start handler replies that the countdown has begun, the
    presser is the game's host and the game's stage is not 1. *)
Theorem countdown_begins_for_host_only (w : world) (i : Interaction) (r : ref) :
  snd (startGameCountdown i w) = Ok (CountdownBegun r) ->
  exists g, heap w !! r = Some g /\ user i = userID g /\ stage g <> 1
            /\ (exists k, (k, r) ∈ games w).
Proof.
  unfold startGameCountdown.
  destruct (List.find _ _) as [[r' g] |] eqn:Hf; [| discriminate].
  apply find_some in Hf. destruct Hf as [Hin _].
  destruct (games_values_registered w r' g Hin) as [Hr Hk].
  destruct (stage _ =? 1) eqn:Hs; [discriminate |].
  destruct (user i =? userID _) eqn:Hu; simpl; [| discriminate].
  intros Heq. injection Heq as <-. exists g. repeat split.
  - exact Hr.
  - apply Z.eqb_eq in Hu. rewrite Hu.
    destruct (List.length (players g) =? 1)%nat; reflexivity.
  - apply Z.eqb_neq in Hs.
    destruct (List.length (players g) =? 1)%nat; exact Hs.
  - exact Hk.
Qed.

Lemma countdown_begins_for_host_only_witness :
  exists g, heap (store 0%nat (set_stage 2 lobby_game) lobby_world) !! 0%nat = Some g
            /\ user (start_press 1) = userID g /\ stage g <> 1
            /\ (exists k, (k, 0%nat) ∈ games (store 0%nat (set_stage 2 lobby_game) lobby_world)).
Proof.
  apply (countdown_begins_for_host_only
           (store 0%nat (set_stage 2 lobby_game) lobby_world) (start_press 1)).
  reflexivity.
Defined.

(** * Further properties of the word tables *)

Lemma random_choice_In {A : Type} (pick : nat) (l : list A) (x : A) :
  random_choice pick l = Ok x -> In x l.
Proof.
  destruct l as [| y l]; [discriminate |]. intros H.
  assert (E : x = nth (pick mod List.length (y :: l))%nat (y :: l) y)
    by (unfold random_choice in H; congruence).
  rewrite E. apply nth_In, Nat.mod_upper_bound. discriminate.
Qed.

Lemma random_choice_nonempty {A : Type} (pick : nat) (l : list A) :
  l <> [] -> exists x, random_choice pick l = Ok x.
Proof. destruct l; [congruence | intros _; eexists; reflexivity]. Qed.

(** X10.  [randomword] answers with a word of the dictionary; it fails, with
    [IndexError], exactly on the empty dictionary. *)
Theorem randomword_spec (words : gset string) (pick : nat) :
  match randomword words pick with
  | Ok w => w ∈ words
  | Raise e => e = IndexError /\ words = ∅
  end.
Proof.
  unfold randomword.
  destruct (random_choice pick (elements words)) as [w | e] eqn:E.
  - apply random_choice_In in E. apply elem_of_elements, list_elem_of_In, E.
  - destruct (elements words) as [| x l] eqn:El; [| discriminate].
    injection E as <-. split; [reflexivity |].
    apply elements_empty_inv in El. apply leibniz_equiv, El.
Qed.

Lemma substring_prefix (k : nat) (w : string) :
  String.prefix (String.substring 0 k w) w = true.
Proof.
  revert k. induction w as [| c w IH]; intros [| k]; simpl; try reflexivity.
  rewrite IH. destruct (ascii_dec c c); [reflexivity | congruence].
Qed.

Lemma substring_length_le (k : nat) (w : string) :
  (String.length (String.substring 0 k w) <= k)%nat.
Proof.
  revert k. induction w as [| c w IH]; intros [| k]; simpl; try lia.
  specialize (IH k). lia.
Qed.

(** X11.  The table of [generate_starters.py]: its keys are 0..6; the entries
    under key [k] are exactly the non-empty slices [word[:k]] of the
    dictionary words, so every entry begins a dictionary word and has at
    most [k] characters, and key 0 has no entry. *)
Theorem dic_spec (words : gset string) (k : Z) :
  match dic words k with
  | Some l =>
      0 <= k < 7
      /\ (forall s, In s l <->
            exists word, word ∈ words
                         /\ s = String.substring 0 (Z.to_nat k) word
                         /\ s <> ""%string)
      /\ (forall s, In s l ->
            (String.length s <= Z.to_nat k)%nat
            /\ exists word, word ∈ words /\ startswith word s = true)
      /\ (k = 0 -> l = [])
  | None => k < 0 \/ 7 <= k
  end.
Proof.
  unfold dic. destruct ((0 <=? k) && (k <? 7)) eqn:Hk.
  - apply andb_true_iff in Hk. destruct Hk as [H0 H7].
    apply Z.leb_le in H0. apply Z.ltb_lt in H7.
    assert (Hspec : forall s,
      In s (List.map (fun word => String.substring 0 (Z.to_nat k) word)
              (List.filter
                 (fun word =>
                    (0 <? String.length (String.substring 0 (Z.to_nat k) word))%nat)
                 (elements words))) <->
      exists word, word ∈ words
                   /\ s = String.substring 0 (Z.to_nat k) word
                   /\ s <> ""%string).
    { intros s. rewrite in_map_iff. split.
      - intros (word & <- & Hin). apply filter_In in Hin.
        destruct Hin as [Hin Hlen]. exists word. repeat split.
        + apply elem_of_elements, list_elem_of_In, Hin.
        + apply Nat.ltb_lt in Hlen. intros E. rewrite E in Hlen.
          simpl in Hlen. lia.
      - intros (word & Hin & -> & Hne). exists word. split; [reflexivity |].
        apply filter_In. split.
        + apply list_elem_of_In, elem_of_elements, Hin.
        + apply Nat.ltb_lt.
          destruct (String.substring 0 (Z.to_nat k) word); [congruence |].
          simpl. lia. }
    repeat split.
    + exact H0.
    + exact H7.
    + apply Hspec.
    + apply Hspec.
    + apply Hspec in H. destruct H as (word & _ & -> & _).
      apply substring_length_le.
    + apply Hspec in H. destruct H as (word & Hin & -> & _).
      exists word. split; [exact Hin | apply substring_prefix].
    + intros ->. simpl.
      destruct (List.filter _ _) as [| x l] eqn:E; [reflexivity |].
      assert (Hx : In x (x :: l)) by (left; reflexivity).
      rewrite <- E in Hx. apply filter_In in Hx. destruct Hx as [_ Hx].
      destruct x; discriminate.
  - apply andb_false_iff in Hk. destruct Hk as [Hk | Hk].
    + apply Z.leb_gt in Hk. left. exact Hk.
    + apply Z.ltb_ge in Hk. right. exact Hk.
Qed.

Lemma dic_spec_witness :
  match dic small_words 2 with
  | Some l =>
      0 <= 2 < 7
      /\ (forall s, In s l <->
            exists word, word ∈ small_words
                         /\ s = String.substring 0 (Z.to_nat 2) word
                         /\ s <> ""%string)
      /\ (forall s, In s l ->
            (String.length s <= Z.to_nat 2)%nat
            /\ exists word, word ∈ small_words /\ startswith word s = true)
      /\ (2 = 0 -> l = [])
  | None => 2 < 0 \/ 7 <= 2
  end.
Proof. apply (dic_spec small_words 2). Defined.

(** X12.  [main.py] and [generate_starters.py] are separate programs, each
    iterating the word set in an order of its own.  Whatever the two
    orders, the prefix table of [main.py] for stage 1 ([word[0]] of every
    non-empty word) and the table of [generate_starters.py] under key 1
    ([word[:1]]) hold the same strings the same number of times; the tables
    of the model are the two comprehensions at the order of [elements]. *)
Theorem stage_one_table_is_dic_one (words : gset string)
    (order1 order2 : list string) :
  order1 ≡ₚ elements words -> order2 ≡ₚ elements words ->
  starters_from order1 1 ≡ₚ dic_from order2 1
  /\ stageStartersRelation words 1 = Some (starters_from (elements words) 1)
  /\ dic words 1 = Some (dic_from (elements words) 1).
Proof.
  intros H1 H2. split; [| split; reflexivity].
  unfold starters_from, dic_from.
  assert (E : forall l,
    List.map (fun word => String.substring (1 - 1) 1 word)
      (List.filter (fun word => (1 - 1 <? String.length word)%nat) l)
    = List.map (fun word => String.substring 0 1 word)
      (List.filter
         (fun word => (0 <? String.length (String.substring 0 1 word))%nat) l)).
  { intros l. simpl. f_equal. apply filter_ext. intros [| c w]; reflexivity. }
  rewrite E.
  apply Permutation_map.
  assert (F : forall (f : string -> bool) (l l' : list string),
             l ≡ₚ l' -> List.filter f l ≡ₚ List.filter f l').
  { intros f l l' H. induction H; simpl.
    - constructor.
    - destruct (f x); [constructor |]; assumption.
    - destruct (f x), (f y); try constructor; reflexivity.
    - etransitivity; eassumption. }
  apply F. rewrite H1, H2. reflexivity.
Qed.

(** The theorem at the two-word dictionary, iterated as "ab", "abc" by one
    program and as "abc", "ab" by the other. *)
Lemma stage_one_table_is_dic_one_witness :
  starters_from ["ab"; "abc"]%string 1 ≡ₚ dic_from ["abc"; "ab"]%string 1
  /\ stageStartersRelation small_words 1
     = Some (starters_from (elements small_words) 1)
  /\ dic small_words 1 = Some (dic_from (elements small_words) 1).
Proof.
  apply (stage_one_table_is_dic_one small_words).
  - vm_compute. reflexivity || apply perm_swap.
  - vm_compute. reflexivity || apply perm_swap.
Defined.

(** * Invariants of the game objects *)

Lemma touched_refl (g : wordbombGame) : touched g g.
Proof.
  exists (response g), (responded g), []. repeat split.
  - destruct g. simpl. rewrite app_nil_r. reflexivity.
  - constructor.
  - rewrite app_nil_r. auto.
Qed.

Lemma touched_trans (g1 g2 g3 : wordbombGame) :
  touched g1 g2 -> touched g2 g3 -> touched g1 g3.
Proof.
  intros (m1 & b1 & l1 & -> & Hl1 & Hd1) (m2 & b2 & l2 & -> & Hl2 & Hd2).
  simpl in *. exists m2, b2, (l1 ++ l2). repeat split.
  - simpl. rewrite <- app_assoc. reflexivity.
  - apply Forall_app. split; assumption.
  - intros H. rewrite app_assoc. auto.
Qed.

Lemma touched_message (m : Message) (g g' : wordbombGame) :
  message_effect m g g' -> touched g g'.
Proof.
  intros [-> | ->]; [apply touched_refl |].
  exists (Some m), true, []. repeat split.
  - destruct g. simpl. rewrite app_nil_r. reflexivity.
  - constructor.
  - rewrite app_nil_r. auto.
Qed.

Lemma touched_join (u : Z) (g : wordbombGame) :
  existsb (fun p => id p =? u) (players g) = false ->
  touched g (set_players (players g ++ [Player_init u default_status]) g).
Proof.
  intros Hex. exists (response g), (responded g), [Player_init u default_status].
  repeat split.
  - repeat constructor.
  - intros Hnd. rewrite fmap_app. apply NoDup_app. repeat split.
    + exact Hnd.
    + intros x Hx Hx'. simpl in Hx'. apply list_elem_of_singleton in Hx'. subst x.
      apply list_elem_of_fmap in Hx. destruct Hx as (p & Hp & Hin).
      assert (Ht : existsb (fun p => id p =? u) (players g) = true).
      { apply existsb_exists. exists p. split.
        - apply list_elem_of_In, Hin.
        - apply Z.eqb_eq. symmetry. exact Hp. }
      congruence.
    + simpl. apply NoDup_singleton.
Qed.

Lemma Forall2_diag_refl {A : Type} (R : A -> A -> Prop) (l : list A) :
  (forall a, R a a) -> Forall2 R l l.
Proof. intros H. apply Forall_Forall2_diag, Forall_forall. intros a _. apply H. Qed.

(** Every handler that can run while the coroutine is suspended only
    touches the game objects. *)
Lemma deliver_touches (e : event) (w : world) :
  Forall2 touched (heap w) (heap (deliver e w)).
Proof.
  destruct e as [m | i | i]; simpl.
  - eapply Forall2_impl; [apply on_message_loop_effect |].
    intros x y. apply touched_message.
  - unfold joinGame.
    destruct (List.find _ _) as [[r g] |] eqn:Hf;
      [| apply Forall2_diag_refl, touched_refl].
    apply find_some in Hf. destruct Hf as [Hin _].
    apply games_values_registered in Hin. destruct Hin as [Hr _].
    destruct (existsb _ _) eqn:Hex; [apply Forall2_diag_refl, touched_refl |].
    assert (Hh : Forall2 touched (heap w)
                   (<[r := set_players
                             (players g ++ [Player_init (user i) default_status]) g]>
                      (heap w))).
    { eapply Forall2_update; [apply touched_refl | exact Hr |].
      apply touched_join, Hex. }
    destruct (join_msg _); exact Hh.
  - rewrite stopgame_fst. simpl. apply Forall2_diag_refl, touched_refl.
Qed.

Lemma loop_head_same (g : wordbombGame) : fst (loop_head g) = g.
Proof.
  unfold loop_head, gameOver_begin, on_main_msg.
  destruct (running g); [| reflexivity].
  destruct (players g); [destruct (main_msg g); reflexivity |].
  destruct (_ !! _); [| reflexivity].
  destruct (main_msg g); reflexivity.
Qed.

Section Preservation.
Variable words : gset string.
Variable Q : wordbombGame -> Prop.
Hypothesis Q_touched : forall g g', touched g g' -> Q g -> Q g'.
Hypothesis Q_time : forall t g, Q g -> Q (set_timeRemaining t g).
Hypothesis Q_countdown : forall n g, Q g -> Q (set_countdown n g).
Hypothesis Q_running : forall b g, Q g -> Q (set_running b g).
Hypothesis Q_lose : forall g g', lose_life g = Ok g' -> Q g -> Q g'.
Hypothesis Q_accept :
  forall g w, accepts words g w = true -> Q g -> Q (accept_answer w g).
Hypothesis Q_eliminate : forall g, Q g -> Q (fst (eliminate g)).
Hypothesis Q_advance : forall pick g, Q g -> Q (fst (advance words pick g)).

Lemma on_main_msg_preserves (g g' : wordbombGame) (c : pc) :
  Q g -> Q g' -> Q (fst (on_main_msg g (g', c))).
Proof. intros H H'. unfold on_main_msg. destruct (main_msg g); assumption. Qed.

Lemma win_check_preserves (pick : nat) (g : wordbombGame) :
  Q g -> Q (fst (win_check words pick g)).
Proof.
  intros H. unfold win_check. destruct (_ && _).
  - apply on_main_msg_preserves; assumption.
  - apply Q_advance, H.
Qed.

Lemma eliminate_check_preserves (pick : nat) (g : wordbombGame) :
  Q g -> Q (fst (eliminate_check words pick g)).
Proof.
  intros H. unfold eliminate_check.
  destruct (_ !! _) as [p |]; [| exact H].
  destruct (hearts p =? 0).
  - apply on_main_msg_preserves; assumption.
  - apply win_check_preserves, H.
Qed.

Lemma resolve_preserves (pick : nat) (g : wordbombGame) :
  Q g -> Q (fst (resolve words pick g)).
Proof.
  intros H. unfold resolve. destruct (responded g).
  - destruct (response g) as [m |]; [| exact H].
    destruct (accepts _ _ _) eqn:Ha; [| exact H].
    apply eliminate_check_preserves, Q_accept; assumption.
  - apply eliminate_check_preserves, H.
Qed.

Lemma wait_check_preserves (pick : nat) (g : wordbombGame) :
  Q g -> Q (fst (wait_check words pick g)).
Proof.
  intros H. unfold wait_check. destruct (responded g); [| exact H].
  apply resolve_preserves, H.
Qed.

Lemma task_step_preserves (pick : nat) (c : pc) (g : wordbombGame) :
  Q g -> Q (fst (task_step words pick c g)).
Proof.
  intros H. destruct c as [[| n] | | | | | | | | | | |]; simpl.
  - rewrite loop_head_same. exact H.
  - apply Q_countdown, H.
  - apply wait_check_preserves, H.
  - unfold poll. cbv zeta. destruct (PrimFloat.leb _ _).
    + destruct (lose_life _) as [g2 |] eqn:E; simpl.
      * apply on_main_msg_preserves; eapply Q_lose; eauto.
      * apply Q_time, H.
    + apply wait_check_preserves, Q_time, H.
  - apply resolve_preserves, H.
  - destruct (lose_life g) as [g1 |] eqn:E; simpl; [| exact H].
    apply on_main_msg_preserves; eapply Q_lose; eauto.
  - apply eliminate_check_preserves, H.
  - apply Q_eliminate, H.
  - apply win_check_preserves, H.
  - unfold gameOver_begin. apply on_main_msg_preserves; assumption.
  - destruct (join_msg g); [apply Q_running |]; exact H.
  - exact H.
  - exact H.
Qed.

Lemma step_preserves (a : action) (s : system) :
  Forall Q (heap (sys_world s)) ->
  Forall Q (heap (sys_world (step words a s))).
Proof.
  intros H. destruct a as [pick | e]; simpl.
  - destruct (heap (sys_world s) !! sys_task s) as [g |] eqn:Hg; [| exact H].
    simpl. apply Forall_insert; [exact H |].
    apply task_step_preserves. eapply Forall_lookup_1; eauto.
  - pose proof (deliver_touches e (sys_world s)) as Ht.
    apply Forall_lookup_2. intros r g' Hr.
    destruct (Forall2_lookup_r _ _ _ _ _ Ht Hr) as (g & Hg & Hgg).
    eapply Q_touched; [exact Hgg |]. eapply Forall_lookup_1; eauto.
Qed.

Lemma run_preserves (l : list action) (s : system) :
  Forall Q (heap (sys_world s)) ->
  Forall Q (heap (sys_world (run words l s))).
Proof.
  revert s. induction l as [| a l IH]; intros s H; [exact H |].
  apply IH, step_preserves, H.
Qed.
End Preservation.

(** What [advance] and [eliminate] leave alone. *)
Lemma advance_fields (words : gset string) (pick : nat) (g : wordbombGame) :
  let g' := fst (advance words pick g) in
  players g' = players g /\ used_words g' = used_words g /\ plays g' = plays g
  /\ userID g' = userID g /\ channelID g' = channelID g /\ gameID g' = gameID g
  /\ singleplayer g' = singleplayer g /\ running g' = running g
  /\ join_msg g' = join_msg g /\ main_msg g' = main_msg g
  /\ countdown g' = countdown g
  /\ (currentPlayerIndex g' = currentPlayerIndex g
      \/ (players g <> []
          /\ currentPlayerIndex g'
             = ((currentPlayerIndex g + 1) mod List.length (players g))%nat)).
Proof.
  unfold advance. cbv zeta.
  destruct (timeStageRelation _) as [t |]; [| simpl; tauto].
  destruct (stageStartersRelation _ _) as [l |]; [| simpl; tauto].
  destruct (random_choice pick l) as [s |]; [| simpl; tauto].
  destruct (List.length (players _)) as [| n] eqn:Hn; [simpl; tauto |].
  rewrite loop_head_same. simpl in *. repeat split.
  right. split.
  - intros E. rewrite E in Hn. discriminate.
  - reflexivity.
Qed.

Lemma eliminate_fields (g : wordbombGame) :
  let g' := fst (eliminate g) in
  used_words g' = used_words g /\ plays g' = plays g
  /\ userID g' = userID g /\ channelID g' = channelID g /\ gameID g' = gameID g
  /\ singleplayer g' = singleplayer g /\ running g' = running g
  /\ join_msg g' = join_msg g /\ main_msg g' = main_msg g
  /\ countdown g' = countdown g
  /\ ((players g' = players g /\ currentPlayerIndex g' = currentPlayerIndex g)
      \/ (players g' = delete (currentPlayerIndex g) (players g)
          /\ (currentPlayerIndex g < List.length (players g))%nat
          /\ currentPlayerIndex g'
             = if (List.length (players g') <=? currentPlayerIndex g)%nat
               then 0%nat else currentPlayerIndex g)).
Proof.
  unfold eliminate. destruct (_ !! _) as [p |] eqn:Hp; [| simpl; tauto].
  cbv zeta. apply lookup_lt_Some in Hp.
  destruct (_ <=? _)%nat eqn:E; simpl in *; rewrite ?E; repeat split; right; auto.
Qed.

Lemma lose_life_fields (g g' : wordbombGame) :
  lose_life g = Ok g' ->
  exists p, players g !! currentPlayerIndex g = Some p
    /\ g' = set_players
              (<[currentPlayerIndex g := set_hearts (hearts p - 1) p]> (players g)) g.
Proof.
  unfold lose_life. destruct (_ !! _) as [p |]; [| discriminate].
  intros H. injection H as <-. exists p. split; reflexivity.
Qed.

(** ** The index stays inside the roster *)

Lemma index_ok_touched (g g' : wordbombGame) :
  touched g g' -> index_ok g -> index_ok g'.
Proof.
  unfold index_ok. intros (m & b & k & -> & _ & _) H. simpl. rewrite length_app.
  destruct H as [H | [H1 H2]]; [left; lia |].
  rewrite H1, H2. simpl. destruct k; [right; split; reflexivity | left; simpl; lia].
Qed.

Lemma index_ok_lose (g g' : wordbombGame) :
  lose_life g = Ok g' -> index_ok g -> index_ok g'.
Proof.
  unfold index_ok. intros Hl H. apply lose_life_fields in Hl.
  destruct Hl as (p & Hp & ->). simpl. rewrite length_insert.
  left. eapply lookup_lt_Some, Hp.
Qed.

Lemma index_ok_eliminate (g : wordbombGame) :
  index_ok g -> index_ok (fst (eliminate g)).
Proof.
  unfold index_ok. intros H.
  destruct (eliminate_fields g) as (_ & _ & _ & _ & _ & _ & _ & _ & _ & _ & He).
  destruct He as [[-> ->] | (Hp & Hlt & Hi)]; [exact H |].
  rewrite Hi. destruct (_ <=? _)%nat eqn:E.
  - destruct (List.length (players (fst (eliminate g)))) eqn:El.
    + right. split; [apply nil_length_inv, El | reflexivity].
    + left. lia.
  - apply Nat.leb_gt in E. left. exact E.
Qed.

Lemma index_ok_advance (words : gset string) (pick : nat) (g : wordbombGame) :
  index_ok g -> index_ok (fst (advance words pick g)).
Proof.
  unfold index_ok. intros H.
  destruct (advance_fields words pick g)
    as (Hp & _ & _ & _ & _ & _ & _ & _ & _ & _ & _ & Hi).
  rewrite Hp. destruct Hi as [-> | [Hne ->]]; [exact H |].
  left. apply Nat.mod_upper_bound. destruct (players g); [congruence | discriminate].
Qed.

Lemma index_ok_message (m : Message) (g : wordbombGame) :
  index_ok g -> exists g', on_message_game m g = Ok g' /\ index_ok g'.
Proof.
  intros H. unfold on_message_game.
  destruct (channelID g =? channel m); [| eauto].
  destruct (existsb _ _) eqn:Hex; [| eauto].
  destruct H as [H | [H _]].
  - destruct (lookup_lt_is_Some_2 _ _ H) as [p Hp]. rewrite Hp.
    destruct (id p =? author m); eexists; (split; [reflexivity |]); left; exact H.
  - rewrite H in Hex. discriminate.
Qed.

Lemma on_message_loop_ok (m : Message) (rs : list (Z * ref))
    (h : list wordbombGame) :
  Forall index_ok h -> snd (on_message_loop m rs h) = Ok tt.
Proof.
  revert h. induction rs as [| [k r] rs IH]; intros h H; simpl; [reflexivity |].
  destruct (h !! r) as [g |] eqn:Hr; [| apply IH, H].
  destruct (index_ok_message m g) as (g' & -> & Hg').
  { eapply Forall_lookup_1; eauto. }
  apply IH, Forall_insert; assumption.
Qed.

(** ** Used words and plays *)

(** X13.  [plays] is the number of used words, and every used word is a
    dictionary word of at least two characters: if this holds of every
    game object, it holds after every run. *)
Theorem run_keeps_words_ok (words : gset string) (l : list action) (s : system) :
  Forall (words_ok words) (heap (sys_world s)) ->
  Forall (words_ok words) (heap (sys_world (run words l s))).
Proof.
  apply run_preserves; unfold words_ok.
  - intros g g' (m & b & k & -> & _ & _) H. exact H.
  - intros t g H. exact H.
  - intros n g H. exact H.
  - intros b g H. exact H.
  - intros g g' Hl H. apply lose_life_fields in Hl.
    destruct Hl as (p & _ & ->). exact H.
  - intros g w Ha [Hn Hw]. apply accepts_true_iff in Ha.
    destruct Ha as (Hlen & Hnew & _ & Hin). simpl. split.
    + rewrite size_union by (apply disjoint_singleton_l, Hnew).
      rewrite size_singleton. lia.
    + intros x Hx. apply elem_of_union in Hx. destruct Hx as [Hx | Hx].
      * apply elem_of_singleton in Hx. rewrite Hx. split; assumption.
      * apply Hw, Hx.
  - intros g H. destruct (eliminate_fields g) as (-> & -> & _). exact H.
  - intros pick g H. destruct (advance_fields words pick g) as (_ & -> & -> & _).
    exact H.
Qed.

(** ** Lives and identities in the roster *)

(** X14.  Nobody ever has more than two lives: if this holds of every roster,
    it holds after every run. *)
Theorem run_keeps_lives_at_most_two (words : gset string) (l : list action)
    (s : system) :
  Forall lives_at_most_two (heap (sys_world s)) ->
  Forall lives_at_most_two (heap (sys_world (run words l s))).
Proof.
  apply run_preserves; unfold lives_at_most_two.
  - intros g g' (m & b & k & -> & Hk & _) H. simpl. apply Forall_app. split.
    + exact H.
    + eapply Forall_impl; [exact Hk |]. simpl. intros p Hp. lia.
  - intros t g H. exact H.
  - intros n g H. exact H.
  - intros b g H. exact H.
  - intros g g' Hl H. apply lose_life_fields in Hl.
    destruct Hl as (p & Hp & ->). simpl. apply Forall_insert; [exact H |].
    simpl. pose proof (Forall_lookup_1 _ _ _ _ H Hp) as Hh. simpl in Hh. lia.
  - intros g w _ H. exact H.
  - intros g H.
    destruct (eliminate_fields g) as (_ & _ & _ & _ & _ & _ & _ & _ & _ & _ & He).
    destruct He as [[-> _] | (-> & _)]; [exact H | apply Forall_delete, H].
  - intros pick g H. destruct (advance_fields words pick g) as (-> & _). exact H.
Qed.

(** X15.  No identity appears twice in a roster: if this holds of every game
    object, it holds after every run, joins included. *)
Theorem run_keeps_roster_distinct (words : gset string) (l : list action)
    (s : system) :
  Forall roster_distinct (heap (sys_world s)) ->
  Forall roster_distinct (heap (sys_world (run words l s))).
Proof.
  apply run_preserves; unfold roster_distinct.
  - intros g g' (m & b & k & -> & _ & Hk) H. simpl. apply Hk, H.
  - intros t g H. exact H.
  - intros n g H. exact H.
  - intros b g H. exact H.
  - intros g g' Hl H. apply lose_life_fields in Hl.
    destruct Hl as (p & Hp & ->). simpl. rewrite list_fmap_insert. simpl.
    rewrite list_insert_id; [exact H |].
    rewrite list_lookup_fmap, Hp. reflexivity.
  - intros g w _ H. exact H.
  - intros g H.
    destruct (eliminate_fields g) as (_ & _ & _ & _ & _ & _ & _ & _ & _ & _ & He).
    destruct He as [[-> _] | (-> & _)]; [exact H |].
    rewrite list_fmap_delete.
    exact (sublist_NoDup _ _ H (sublist_delete _ _)).
  - intros pick g H. destruct (advance_fields words pick g) as (-> & _). exact H.
Qed.

(** ** What never changes, what only grows *)

Lemma grows_refl (g : wordbombGame) : grows g g.
Proof. grows_fields. Qed.

Lemma grows_trans (g1 g2 g3 : wordbombGame) :
  grows g1 g2 -> grows g2 g3 -> grows g1 g3.
Proof.
  unfold grows.
  intros (A1 & A2 & A3 & A4 & A5 & A6 & A7 & A8)
         (B1 & B2 & B3 & B4 & B5 & B6 & B7 & B8).
  grows_fields.
Qed.

Lemma grows_touched (g g' : wordbombGame) : touched g g' -> grows g g'.
Proof. intros (m & b & k & -> & _ & _). grows_fields. Qed.

Lemma grows_task (words : gset string) (pick : nat) (c : pc) (g : wordbombGame) :
  grows g (fst (task_step words pick c g)).
Proof.
  apply (task_step_preserves words (grows g)); [| | | | | | | apply grows_refl].
  - intros t g1 H. exact H.
  - intros n g1 H. exact H.
  - intros b g1 H. exact H.
  - intros g1 g2 Hl H. apply lose_life_fields in Hl.
    destruct Hl as (p & _ & ->). exact H.
  - intros g1 w _ H. eapply grows_trans; [exact H |].
    grows_fields.
  - intros g1 H. eapply grows_trans; [exact H |].
    destruct (eliminate_fields g1) as (A1 & A2 & A3 & A4 & A5 & A6 & A7 & A8 & A9 & _).
    unfold grows. rewrite A1, A2.
    repeat apply conj; first [assumption | reflexivity | lia].
  - intros pick' g1 H. eapply grows_trans; [exact H |].
    destruct (advance_fields words pick' g1)
      as (_ & A1 & A2 & A3 & A4 & A5 & A6 & A7 & A8 & A9 & _).
    unfold grows. rewrite A1, A2.
    repeat apply conj; first [assumption | reflexivity | lia].
Qed.

Lemma grows_step (words : gset string) (a : action) (s : system) :
  Forall2 grows (heap (sys_world s)) (heap (sys_world (step words a s)))
  /\ forall k r, dict_get k (games (sys_world (step words a s))) = Some r ->
                 dict_get k (games (sys_world s)) = Some r.
Proof.
  destruct a as [pick | e]; simpl.
  - destruct (heap (sys_world s) !! sys_task s) as [g |] eqn:Hg.
    + split; [| auto]. simpl.
      eapply Forall2_update; [apply grows_refl | exact Hg | apply grows_task].
    + split; [apply Forall2_diag_refl, grows_refl | auto].
  - split.
    + eapply Forall2_impl; [apply deliver_touches | apply grows_touched].
    + destruct e as [m | i | i]; simpl; try (intros k r H; exact H).
      * unfold joinGame. destruct (List.find _ _) as [[r g] |]; [| auto].
        destruct (existsb _ _); [auto |]. destruct (join_msg _); auto.
      * intros k r. rewrite stopgame_fst. simpl. rewrite dict_get_del.
        destruct (k =? user i); [discriminate | auto].
Qed.

(** X16.  Along every run, whatever handlers are delivered: no game object is
    created or lost; each keeps its host, its room, its id, its
    [singleplayer] flag and its message handles; its [used_words] only
    grows and its [plays] never decreases; and the registry gains no
    entry. *)
Theorem run_grows (words : gset string) (l : list action) (s : system) :
  Forall2 grows (heap (sys_world s)) (heap (sys_world (run words l s)))
  /\ forall k r, dict_get k (games (sys_world (run words l s))) = Some r ->
                 dict_get k (games (sys_world s)) = Some r.
Proof.
  revert s. induction l as [| a l IH]; intros s.
  - split; [apply Forall2_diag_refl, grows_refl | auto].
  - destruct (grows_step words a s) as [H1 H2].
    destruct (IH (step words a s)) as [H3 H4]. split.
    + eapply Forall2_trans; [apply grows_trans | exact H1 | exact H3].
    + intros k r H. apply H2, H4, H.
Qed.

Lemma run_grows_witness :
  Forall2 grows (heap (sys_world duel))
    (heap (sys_world (run small_words through_countdown duel)))
  /\ forall k r,
       dict_get k (games (sys_world (run small_words through_countdown duel)))
         = Some r ->
       dict_get k (games (sys_world duel)) = Some r.
Proof. apply (run_grows small_words through_countdown duel). Defined.

(** * Invariants of the coroutine *)

Section Along_a_run.
Variable words : gset string.
Variable P G : pc -> wordbombGame -> Prop.
Hypothesis P_touched : forall c g g', touched g g' -> P c g -> P c g'.
Hypothesis P_task :
  forall pick c g, P c g -> G c g ->
    P (snd (task_step words pick c g)) (fst (task_step words pick c g)).

Lemma step_invariant (a : action) (s : system) (g : wordbombGame) :
  game_of s = Some g -> P (sys_pc s) g ->
  (forall pick, a = Resume pick -> G (sys_pc s) g) ->
  exists g', game_of (step words a s) = Some g'
             /\ P (sys_pc (step words a s)) g'.
Proof.
  intros Hg HP HG. unfold game_of in *. destruct a as [pick | e]; simpl.
  - rewrite Hg. simpl. eexists. split.
    + apply list_lookup_insert_eq. eapply lookup_lt_Some, Hg.
    + apply P_task; [exact HP | eapply HG; reflexivity].
  - destruct (Forall2_lookup_l _ _ _ _ _ (deliver_touches e (sys_world s)) Hg)
      as (g' & Hg' & Ht).
    exists g'. split; [exact Hg' | eapply P_touched; eauto].
Qed.

Lemma run_invariant (l : list action) (s : system) (g : wordbombGame) :
  game_of s = Some g -> P (sys_pc s) g -> resumes_when G words l s ->
  exists g', game_of (run words l s) = Some g'
             /\ P (sys_pc (run words l s)) g'.
Proof.
  revert s g. induction l as [| a l IH]; intros s g Hg HP HG.
  - exists g. split; assumption.
  - destruct HG as [Ha HG].
    destruct (step_invariant a s g Hg HP) as (g' & Hg' & HP').
    { intros pick ->. apply Ha, Hg. }
    exact (IH (step words a s) g' Hg' HP' HG).
Qed.
End Along_a_run.

Lemma resumes_when_always (words : gset string) (l : list action) (s : system) :
  resumes_when (fun _ _ => True) words l s.
Proof.
  revert s. induction l as [| a l IH]; intros s; simpl; [exact I |].
  split; [destruct a; auto | apply IH].
Qed.

(** How [loop_head], [advance] and [win_check] can end. *)
Lemma loop_head_outcome (g : wordbombGame) :
  (exists e, snd (loop_head g) = Crashed e)
  \/ (snd (loop_head g) = Returned /\ running g = false)
  \/ (snd (loop_head g) = AwaitGameOver /\ running g = true /\ players g = [])
  \/ (snd (loop_head g) = AwaitEditNextup /\ running g = true /\ players g <> []).
Proof.
  unfold loop_head, gameOver_begin, on_main_msg.
  destruct (running g); [| right; left; split; reflexivity].
  destruct (players g) as [| p l] eqn:Hp.
  - destruct (main_msg g); [| left; eexists; reflexivity].
    right; right; left. repeat split.
  - destruct (_ !! _); [| left; eexists; reflexivity].
    destruct (main_msg g); [| left; eexists; reflexivity].
    right; right; right. repeat split. discriminate.
Qed.

Lemma advance_outcome (words : gset string) (pick : nat) (g : wordbombGame) :
  (exists e, snd (advance words pick g) = Crashed e)
  \/ (players g <> []
      /\ ((snd (advance words pick g) = Returned /\ running g = false)
          \/ (snd (advance words pick g) = AwaitEditNextup /\ running g = true))).
Proof.
  unfold advance. cbv zeta.
  destruct (timeStageRelation _) as [t |]; [| left; eexists; reflexivity].
  destruct (stageStartersRelation _ _) as [l |]; [| left; eexists; reflexivity].
  destruct (random_choice pick l) as [s |]; [| left; eexists; reflexivity].
  destruct (List.length (players _)) as [| n] eqn:Hn; [left; eexists; reflexivity |].
  simpl in Hn.
  assert (Hne : players g <> []) by (intros E; rewrite E in Hn; discriminate).
  match goal with |- context [loop_head ?x] =>
    destruct (loop_head_outcome x) as [H | [H | [H | H]]] end.
  - left. exact H.
  - right. split; [exact Hne | left; exact H].
  - destruct H as (_ & _ & H). simpl in H. contradiction.
  - right. split; [exact Hne | right]. destruct H as (H1 & H2 & _). split; assumption.
Qed.

Lemma win_check_outcome (words : gset string) (pick : nat) (g : wordbombGame) :
  let r := win_check words pick g in
  players (fst r) = players g /\ singleplayer (fst r) = singleplayer g
  /\ running (fst r) = running g
  /\ ((exists e, snd r = Crashed e)
      \/ (snd r = AwaitWinsEdit /\ List.length (players g) = 1%nat
          /\ singleplayer g = false)
      \/ (snd r = Returned /\ running g = false /\ players g <> [])
      \/ (snd r = AwaitEditNextup /\ running g = true /\ players g <> [])).
Proof.
  unfold win_check, on_main_msg.
  destruct ((List.length (players g) =? 1)%nat && negb (singleplayer g)) eqn:E.
  - apply andb_true_iff in E. destruct E as [E1 E2].
    apply Nat.eqb_eq in E1. apply negb_true_iff in E2.
    destruct (main_msg g); simpl; repeat split.
    + right; left. repeat split; assumption.
    + left. eexists; reflexivity.
  - destruct (advance_fields words pick g)
      as (A1 & _ & _ & _ & _ & _ & A2 & A3 & _).
    cbv zeta. repeat split; try assumption.
    destruct (advance_outcome words pick g) as [H | [Hne [H | H]]].
    + left. exact H.
    + right; right; left. destruct H. repeat split; assumption.
    + right; right; right. destruct H. repeat split; assumption.
Qed.

Lemma on_main_msg_outcome (g g' : wordbombGame) (c : pc) :
  on_main_msg g (g', c) = (g', c)
  \/ on_main_msg g (g', c) = (g, Crashed AttributeError).
Proof. unfold on_main_msg. destruct (main_msg g); auto. Qed.

Lemma lose_life_roster (g g' : wordbombGame) :
  lose_life g = Ok g' ->
  players g' <> [] /\ singleplayer g' = singleplayer g /\ running g' = running g.
Proof.
  intros H. apply lose_life_fields in H. destruct H as (p & Hp & ->). simpl.
  repeat split. intros E. apply (f_equal List.length) in E.
  rewrite length_insert in E. apply lookup_lt_Some in Hp. simpl in E. lia.
Qed.

(** ** [gameOver] never sees an empty roster *)

Lemma roster_present_win_check words pick g :
  roster_present (snd (win_check words pick g)) (fst (win_check words pick g)).
Proof.
  destruct (win_check_outcome words pick g) as (Hp & _ & _ & H).
  destruct H as [[e H] | [(H & Hl & _) | [(H & _) | (H & _ & Hne)]]];
    rewrite H; simpl; auto.
  - rewrite Hp. intros E. rewrite E in Hl. discriminate.
  - rewrite Hp. exact Hne.
Qed.

Lemma roster_present_eliminate_check words pick g :
  players g <> [] ->
  roster_present (snd (eliminate_check words pick g))
                 (fst (eliminate_check words pick g)).
Proof.
  intros Hne. unfold eliminate_check.
  destruct (_ !! _) as [p |]; [| exact I].
  destruct (hearts p =? 0); [| apply roster_present_win_check].
  destruct (on_main_msg_outcome g g AwaitDiedEdit) as [-> | ->]; simpl; auto.
Qed.

Lemma roster_present_resolve words pick g :
  players g <> [] ->
  roster_present (snd (resolve words pick g)) (fst (resolve words pick g)).
Proof.
  intros Hne. unfold resolve. destruct (responded g).
  - destruct (response g) as [m |]; [| exact I].
    destruct (accepts _ _ _); [| exact Hne].
    apply roster_present_eliminate_check. exact Hne.
  - apply roster_present_eliminate_check, Hne.
Qed.

Lemma roster_present_task (words : gset string) (pick : nat) (c : pc)
    (g : wordbombGame) :
  roster_present c g ->
  roster_present (snd (task_step words pick c g)) (fst (task_step words pick c g)).
Proof.
  intros H. destruct c as [[| n] | | | | | | | | | | |]; simpl in *.
  - rewrite loop_head_same.
    destruct (loop_head_outcome g) as [[e E] | [[E _] | [(E & _ & E') | (E & _)]]];
      rewrite E; simpl; auto.
  - exact H.
  - unfold wait_check. destruct (responded g); [| exact H].
    apply roster_present_resolve, H.
  - unfold poll. cbv zeta. destruct (PrimFloat.leb _ _).
    + destruct (lose_life _) as [g2 |] eqn:E; [| exact I].
      apply lose_life_roster in E. destruct E as [E _].
      destruct (on_main_msg_outcome g2 g2 AwaitTimeoutPause) as [-> | ->]; simpl; auto.
    + unfold wait_check. simpl. destruct (responded g); [| exact H].
      apply roster_present_resolve. exact H.
  - apply roster_present_resolve, H.
  - destruct (lose_life g) as [g1 |] eqn:E; [| exact I].
    apply lose_life_roster in E. destruct E as [E _].
    destruct (on_main_msg_outcome g1 g1 AwaitRejectPause) as [-> | ->]; simpl; auto.
  - apply roster_present_eliminate_check, H.
  - unfold eliminate. destruct (_ !! _); [| exact I]. cbv zeta. exact I.
  - apply roster_present_win_check.
  - unfold gameOver_begin.
    destruct (on_main_msg_outcome g g AwaitGameOver) as [-> | ->]; simpl; auto.
  - destruct (join_msg g); exact I.
  - exact I.
  - exact I.
Qed.

Lemma roster_present_touched (c : pc) (g g' : wordbombGame) :
  touched g g' -> roster_present c g -> roster_present c g'.
Proof.
  intros (m & b & k & -> & _ & _). destruct c; simpl; auto;
    intros H E; apply app_eq_nil in E; destruct E; contradiction.
Qed.

(** X17.  In every run that starts with a non-empty roster, [gameOver] is only
    reached with a player left: the "None (Singleplayer)" winner is never
    shown, and the empty-roster exit at the top of the loop is never
    taken. *)
Theorem gameOver_has_a_winner (words : gset string) (l : list action)
    (s : system) (g : wordbombGame) :
  game_of s = Some g -> roster_present (sys_pc s) g ->
  sys_pc (run words l s) = AwaitGameOver ->
  exists g' p, game_of (run words l s) = Some g'
               /\ gameOver_winner g' = Some p.
Proof.
  intros Hg HP Hpc.
  destruct (run_invariant words roster_present (fun _ _ => True)
              roster_present_touched
              (fun pick c g0 H _ => roster_present_task words pick c g0 H)
              l s g Hg HP (resumes_when_always words l s)) as (g' & Hg' & HP').
  rewrite Hpc in HP'. simpl in HP'.
  destruct (players g') as [| p k] eqn:E; [contradiction |].
  exists g', (id p). split; [exact Hg' |].
  unfold gameOver_winner. rewrite E. reflexivity.
Qed.

(** ** A game flagged [singleplayer] never finishes *)

Lemma solo_running_win_check words pick g :
  singleplayer g = true -> running g = true ->
  solo_running (snd (win_check words pick g)) (fst (win_check words pick g)).
Proof.
  intros Hs Hr.
  destruct (win_check_outcome words pick g) as (Hp & Hs' & Hr' & H).
  unfold solo_running. rewrite Hs', Hr'. repeat split; try assumption.
  destruct H as [[e H] | [(H & _ & Hf) | [(H & Hf & _) | (H & _ & Hne)]]].
  - rewrite H. exact I.
  - congruence.
  - congruence.
  - rewrite H, Hp. exact Hne.
Qed.

Lemma solo_running_eliminate_check words pick g :
  singleplayer g = true -> running g = true -> players g <> [] ->
  solo_running (snd (eliminate_check words pick g))
               (fst (eliminate_check words pick g)).
Proof.
  intros Hs Hr Hne. unfold eliminate_check.
  destruct (_ !! _) as [p |]; [| repeat split; assumption].
  destruct (hearts p =? 0); [| apply solo_running_win_check; assumption].
  destruct (on_main_msg_outcome g g AwaitDiedEdit) as [-> | ->];
    repeat split; assumption.
Qed.

Lemma solo_running_resolve words pick g :
  singleplayer g = true -> running g = true -> players g <> [] ->
  solo_running (snd (resolve words pick g)) (fst (resolve words pick g)).
Proof.
  intros Hs Hr Hne. unfold resolve. destruct (responded g).
  - destruct (response g) as [m |]; [| repeat split; assumption].
    destruct (accepts _ _ _); [| repeat split; assumption].
    apply solo_running_eliminate_check; assumption.
  - apply solo_running_eliminate_check; assumption.
Qed.

Lemma solo_running_task (words : gset string) (pick : nat) (c : pc)
    (g : wordbombGame) :
  solo_running c g ->
  solo_running (snd (task_step words pick c g)) (fst (task_step words pick c g)).
Proof.
  intros (Hs & Hr & H). destruct c as [[| n] | | | | | | | | | | |];
    simpl in *; try contradiction.
  - rewrite loop_head_same.
    destruct (loop_head_outcome g) as [[e E] | [[E E'] | [(E & _ & E') | (E & _)]]];
      rewrite E; repeat split; try assumption; congruence.
  - repeat split; assumption.
  - unfold wait_check. destruct (responded g); [| repeat split; assumption].
    apply solo_running_resolve; assumption.
  - unfold poll. cbv zeta. destruct (PrimFloat.leb _ _).
    + destruct (lose_life _) as [g2 |] eqn:E; [| repeat split; assumption].
      apply lose_life_roster in E. destruct E as (E1 & E2 & E3). simpl in E2, E3.
      destruct (on_main_msg_outcome g2 g2 AwaitTimeoutPause) as [-> | ->];
        repeat split; simpl; congruence.
    + unfold wait_check. simpl. destruct (responded g); [| repeat split; assumption].
      apply solo_running_resolve; assumption.
  - apply solo_running_resolve; assumption.
  - destruct (lose_life g) as [g1 |] eqn:E; [| repeat split; assumption].
    apply lose_life_roster in E. destruct E as (E1 & E2 & E3).
    destruct (on_main_msg_outcome g1 g1 AwaitRejectPause) as [-> | ->];
      repeat split; simpl; congruence.
  - apply solo_running_eliminate_check; assumption.
  - destruct (eliminate_fields g) as (_ & _ & _ & _ & _ & E1 & E2 & _).
    unfold solo_running. rewrite E1, E2. repeat split; try assumption.
    unfold eliminate. destruct (_ !! _); [| exact I]. cbv zeta. exact I.
  - apply solo_running_win_check; assumption.
  - repeat split; assumption.
Qed.

Lemma solo_running_touched (c : pc) (g g' : wordbombGame) :
  touched g g' -> solo_running c g -> solo_running c g'.
Proof.
  intros (m & b & k & -> & _ & _) (Hs & Hr & H). repeat split; try assumption.
  destruct c; simpl in *; auto;
    intros E; apply app_eq_nil in E; destruct E; contradiction.
Qed.

(** X18.  A running game whose [singleplayer] flag is set never reaches the win
    announcement or [gameOver], and its coroutine never returns, whatever
    is played and whoever joins: it keeps running until it crashes. *)
Theorem solo_game_never_finishes (words : gset string) (l : list action)
    (s : system) (g : wordbombGame) :
  game_of s = Some g -> solo_running (sys_pc s) g ->
  sys_pc (run words l s) <> AwaitWinsEdit
  /\ sys_pc (run words l s) <> AwaitGameOver
  /\ sys_pc (run words l s) <> Returned
  /\ running <$> game_of (run words l s) = Some true.
Proof.
  intros Hg HP.
  destruct (run_invariant words solo_running (fun _ _ => True)
              solo_running_touched
              (fun pick c g0 H _ => solo_running_task words pick c g0 H)
              l s g Hg HP (resumes_when_always words l s))
    as (g' & Hg' & _ & Hr & HP').
  rewrite Hg'. simpl. rewrite Hr.
  repeat split; intros E; rewrite E in HP'; exact HP'.
Qed.

(** ** Lives, when no answer arrives after the clock has run out *)

Lemma all_alive_others (g : wordbombGame) : all_alive g -> others_alive g.
Proof.
  intros H k p Hp. pose proof (Forall_lookup_1 _ _ _ _ H Hp) as Hh.
  simpl in Hh. split; [lia | intros _; exact Hh].
Qed.

Lemma others_alive_none_negative (g : wordbombGame) :
  others_alive g -> none_negative g.
Proof. intros H. apply Forall_lookup_2. intros k p Hp. apply (H k p Hp). Qed.

Lemma all_alive_none_negative (g : wordbombGame) : all_alive g -> none_negative g.
Proof. intros H. apply others_alive_none_negative, all_alive_others, H. Qed.

Lemma lives_inv_none_negative (c : pc) (g : wordbombGame) :
  lives_inv c g -> none_negative g.
Proof.
  destruct c; simpl; auto using all_alive_none_negative, others_alive_none_negative.
Qed.

Lemma lives_inv_of_all_alive (c : pc) (g : wordbombGame) :
  all_alive g -> lives_inv c g.
Proof.
  destruct c; simpl; auto using all_alive_none_negative, all_alive_others.
Qed.

Lemma lives_inv_win_check words pick g :
  all_alive g ->
  lives_inv (snd (win_check words pick g)) (fst (win_check words pick g)).
Proof.
  intros H. apply lives_inv_of_all_alive. unfold all_alive.
  rewrite (proj1 (win_check_outcome words pick g)). exact H.
Qed.

Lemma lives_inv_eliminate_check words pick g :
  others_alive g ->
  lives_inv (snd (eliminate_check words pick g))
            (fst (eliminate_check words pick g)).
Proof.
  intros H. unfold eliminate_check.
  destruct (_ !! _) as [p |] eqn:Hp; [| apply others_alive_none_negative, H].
  destruct (hearts p =? 0) eqn:Hz.
  - destruct (on_main_msg_outcome g g AwaitDiedEdit) as [-> | ->]; simpl;
      [exact H | apply others_alive_none_negative, H].
  - apply lives_inv_win_check. apply Forall_lookup_2. intros k q Hq.
    destruct (H k q Hq) as [H0 H1].
    destruct (decide (k = currentPlayerIndex g)) as [-> | Hne]; [| auto].
    rewrite Hp in Hq. injection Hq as <-. apply Z.eqb_neq in Hz. lia.
Qed.

Lemma lives_inv_resolve words pick g :
  all_alive g ->
  lives_inv (snd (resolve words pick g)) (fst (resolve words pick g)).
Proof.
  intros H. unfold resolve. destruct (responded g).
  - destruct (response g) as [m |]; [| apply all_alive_none_negative, H].
    destruct (accepts _ _ _); [| exact H].
    apply lives_inv_eliminate_check. apply all_alive_others. exact H.
  - apply lives_inv_eliminate_check, all_alive_others, H.
Qed.

Lemma lose_life_others_alive (g g' : wordbombGame) :
  all_alive g -> lose_life g = Ok g' -> others_alive g'.
Proof.
  intros H Hl. apply lose_life_fields in Hl. destruct Hl as (p & Hp & ->).
  intros k q Hq. simpl in *.
  destruct (decide (k = currentPlayerIndex g)) as [-> | Hne].
  - rewrite list_lookup_insert_eq in Hq by (eapply lookup_lt_Some, Hp).
    injection Hq as <-. simpl.
    pose proof (Forall_lookup_1 _ _ _ _ H Hp) as Hh. simpl in Hh.
    split; [lia | congruence].
  - rewrite list_lookup_insert_ne in Hq by congruence.
    pose proof (Forall_lookup_1 _ _ _ _ H Hq) as Hh. simpl in Hh.
    split; [lia | intros _; exact Hh].
Qed.

Lemma lives_inv_lose (g : wordbombGame) (c : pc) :
  all_alive g -> (c = AwaitTimeoutPause \/ c = AwaitRejectPause) ->
  let r := match lose_life g with
           | Ok g1 => on_main_msg g1 (g1, c)
           | Raise e => (g, Crashed e)
           end in
  lives_inv (snd r) (fst r).
Proof.
  intros H Hc. cbv zeta. destruct (lose_life g) as [g1 |] eqn:E.
  - pose proof (lose_life_others_alive g g1 H E) as Ho.
    destruct (on_main_msg_outcome g1 g1 c) as [-> | ->]; simpl.
    + destruct Hc as [-> | ->]; exact Ho.
    + apply others_alive_none_negative, Ho.
  - apply all_alive_none_negative, H.
Qed.

Lemma lives_inv_task (words : gset string) (pick : nat) (c : pc)
    (g : wordbombGame) :
  lives_inv c g -> punctual c g ->
  lives_inv (snd (task_step words pick c g)) (fst (task_step words pick c g)).
Proof.
  intros H Hpun. destruct c as [[| n] | | | | | | | | | | |]; simpl in *.
  - rewrite loop_head_same. apply lives_inv_of_all_alive, H.
  - exact H.
  - unfold wait_check. destruct (responded g); [| exact H].
    apply lives_inv_resolve, H.
  - unfold poll. cbv zeta. destruct (PrimFloat.leb _ _).
    + apply (lives_inv_lose (set_timeRemaining _ g) AwaitTimeoutPause); auto.
    + unfold wait_check. simpl. destruct (responded g); [| exact H].
      apply lives_inv_resolve. exact H.
  - unfold resolve. rewrite (Hpun eq_refl).
    apply lives_inv_eliminate_check, H.
  - apply (lives_inv_lose g AwaitRejectPause); auto.
  - apply lives_inv_eliminate_check, H.
  - unfold eliminate. destruct (_ !! _) as [p |] eqn:Hp;
      [| apply others_alive_none_negative, H].
    cbv zeta.
    assert (Ha : all_alive (set_players (delete (currentPlayerIndex g) (players g)) g)).
    { apply Forall_lookup_2. intros k q Hq. simpl in Hq.
      destruct (decide (k < currentPlayerIndex g)%nat) as [Hlt | Hge].
      - rewrite list_lookup_delete_lt in Hq by exact Hlt.
        apply (H k q Hq). lia.
      - rewrite list_lookup_delete_ge in Hq by lia.
        apply (H (S k) q Hq). lia. }
    destruct (_ <=? _)%nat; exact Ha.
  - apply lives_inv_win_check, H.
  - unfold gameOver_begin.
    destruct (on_main_msg_outcome g g AwaitGameOver) as [-> | ->]; simpl;
      [exact H | apply all_alive_none_negative, H].
  - destruct (join_msg g); simpl; [exact H | apply all_alive_none_negative, H].
  - exact H.
  - exact H.
Qed.

Lemma lives_inv_touched (c : pc) (g g' : wordbombGame) :
  touched g g' -> lives_inv c g -> lives_inv c g'.
Proof.
  intros (m & b & k & -> & Hk & _) H.
  assert (Hall : all_alive g ->
                 all_alive (set_response m b (set_players (players g ++ k) g))).
  { intros Ha. apply Forall_app. split; [exact Ha |].
    eapply Forall_impl; [exact Hk |]. simpl. intros p Hp. lia. }
  assert (Hoth : others_alive g ->
                 others_alive (set_response m b (set_players (players g ++ k) g))).
  { intros Ho i p Hp. simpl in *.
    destruct (decide (i < List.length (players g))%nat) as [Hlt | Hge].
    - rewrite lookup_app_l in Hp by exact Hlt. apply (Ho i p Hp).
    - rewrite lookup_app_r in Hp by lia.
      pose proof (Forall_lookup_1 _ _ _ _ Hk Hp) as Hh. simpl in Hh. lia. }
  assert (Hneg : none_negative g ->
                 none_negative (set_response m b (set_players (players g ++ k) g))).
  { intros Hn. apply Forall_app. split; [exact Hn |].
    eapply Forall_impl; [exact Hk |]. simpl. intros p Hp. lia. }
  destruct c; simpl in *; auto.
Qed.

(** X19.  In every run in which no answer is pending when the coroutine resumes
    from the pause after a timeout: no player's lives go below zero, and
    outside the steps between a life loss and the elimination that follows
    it, in particular whenever a turn is announced, every player in the
    roster has at least one life. *)
Theorem lives_stay_positive (words : gset string) (l : list action)
    (s : system) (g : wordbombGame) :
  game_of s = Some g -> lives_inv (sys_pc s) g ->
  resumes_when punctual words l s ->
  exists g', game_of (run words l s) = Some g'
             /\ lives_inv (sys_pc (run words l s)) g'
             /\ none_negative g'.
Proof.
  intros Hg HP HG.
  destruct (run_invariant words lives_inv punctual lives_inv_touched
              (lives_inv_task words) l s g Hg HP HG) as (g' & Hg' & HP').
  exists g'. repeat split; try assumption.
  eapply lives_inv_none_negative, HP'.
Qed.

(** * The steps of a turn *)

(** ** Stage, time budget and prefix of the next turn *)

Lemma stage_range (n : Z) : 0 <= n -> 1 <= Z.min 7 (n / 10 + 1) <= 7.
Proof. intros H. pose proof (Z.div_pos n 10 H). lia. Qed.

Lemma timeStageRelation_defined (s : Z) :
  1 <= s <= 7 -> exists t, timeStageRelation s = Some t.
Proof.
  intros H.
  assert (E : s = 1 \/ s = 2 \/ s = 3 \/ s = 4 \/ s = 5 \/ s = 6 \/ s = 7) by lia.
  destruct E as [-> | [-> | [-> | [-> | [-> | [-> | ->]]]]]];
    eexists; reflexivity.
Qed.

Lemma stageStartersRelation_defined (words : gset string) (s : Z) :
  1 <= s <= 7 ->
  stageStartersRelation words s = Some (starters_at words (Z.to_nat s)).
Proof.
  intros H. unfold stageStartersRelation.
  assert (E : (1 <=? s) && (s <? 8) = true).
  { apply andb_true_iff. split; [apply Z.leb_le | apply Z.ltb_lt]; lia. }
  rewrite E. reflexivity.
Qed.

(** The draws of the advance step succeed when a long enough word
    exists. *)
Lemma advance_draws (words : gset string) (pick : nat) (n : Z) (long : string) :
  0 <= n -> long ∈ words ->
  (Z.to_nat (Z.min 7 (n / 10 + 1)) <= String.length long)%nat ->
  exists t starter,
    timeStageRelation (Z.min 7 (n / 10 + 1)) = Some t
    /\ stageStartersRelation words (Z.min 7 (n / 10 + 1))
       = Some (starters_at words (Z.to_nat (Z.min 7 (n / 10 + 1))))
    /\ random_choice pick (starters_at words (Z.to_nat (Z.min 7 (n / 10 + 1))))
       = Ok starter
    /\ In starter (starters_at words (Z.to_nat (Z.min 7 (n / 10 + 1)))).
Proof.
  intros Hn Hlong Hlen. pose proof (stage_range n Hn) as Hs.
  set (s := Z.min 7 (n / 10 + 1)) in *.
  destruct (timeStageRelation_defined s Hs) as [t Ht].
  assert (Hin : In (String.substring (Z.to_nat s - 1) 1 long)
                   (starters_at words (Z.to_nat s))).
  { apply starters_at_spec. exists long. repeat split; [exact Hlong |].
    clearbody s. lia. }
  destruct (starters_at words (Z.to_nat s)) as [| x l] eqn:El; [destruct Hin |].
  destruct (random_choice pick (x :: l)) as [starter |] eqn:Ec; [| discriminate].
  exists t, starter. repeat split.
  - exact Ht.
  - rewrite (stageStartersRelation_defined words s Hs), El. reflexivity.
  - apply (random_choice_In _ _ _ Ec).
Qed.

(** The advance step once its three lookups have succeeded. *)
Lemma advance_unfold (words : gset string) (pick : nat) (g : wordbombGame)
    (t : float) (l : list string) (starter : string) :
  timeStageRelation (Z.min 7 (plays g / 10 + 1)) = Some t ->
  stageStartersRelation words (Z.min 7 (plays g / 10 + 1)) = Some l ->
  random_choice pick l = Ok starter ->
  players g <> [] ->
  advance words pick g
    = loop_head
        (set_response None false
           (set_currentPlayerIndex
              ((currentPlayerIndex g + 1) mod List.length (players g))%nat
              (set_currentStarter starter
                 (set_timeRemaining t
                    (set_stage (Z.min 7 (plays g / 10 + 1)) g))))).
Proof.
  intros Ht Hl Hc Hne. unfold advance. cbv zeta. simpl stage. rewrite Ht.
  simpl stage. rewrite Hl, Hc. simpl players.
  destruct (players g) as [| p k]; [congruence | reflexivity].
Qed.

(** The loop test on a running game whose index is inside the roster and
    whose main message exists. *)
Lemma loop_head_goes_on (g : wordbombGame) :
  running g = true -> main_msg g <> None ->
  (currentPlayerIndex g < List.length (players g))%nat ->
  snd (loop_head g) = AwaitEditNextup.
Proof.
  intros Hr Hm Hlt. unfold loop_head. rewrite Hr.
  destruct (players g) as [| p l] eqn:E; [simpl in Hlt; lia |].
  rewrite <- E in *.
  destruct (lookup_lt_is_Some_2 _ _ Hlt) as [q Hq]. rewrite Hq.
  unfold on_main_msg. destruct (main_msg g); [reflexivity | congruence].
Qed.

(** X20.  When [plays] is not negative, the roster is not empty and some
    dictionary word is at least as long as the new stage number, the
    advance step succeeds: the stage becomes [min(7, plays // 10 + 1)],
    between 1 and 7; the clock is set to that stage's budget; the prefix is
    one character, the stage-th character of a dictionary word; the index
    moves to the next roster position, wrapping around; the pending answer
    is cleared; the roster, [plays] and [used_words] are as before; and
    when the game is running and its main message exists, the loop goes on
    to announce the next player. *)
Theorem advance_next_turn (words : gset string) (pick : nat) (g : wordbombGame)
    (long : string) :
  0 <= plays g -> players g <> [] ->
  long ∈ words ->
  (Z.to_nat (Z.min 7 (plays g / 10 + 1)) <= String.length long)%nat ->
  let s := Z.min 7 (plays g / 10 + 1) in
  let g' := fst (advance words pick g) in
  1 <= s <= 7
  /\ exists t starter word,
       timeStageRelation s = Some t
       /\ word ∈ words /\ (Z.to_nat s <= String.length word)%nat
       /\ starter = String.substring (Z.to_nat s - 1) 1 word
       /\ String.length starter = 1%nat
       /\ advance words pick g
          = loop_head
              (set_response None false
                 (set_currentPlayerIndex
                    ((currentPlayerIndex g + 1) mod List.length (players g))%nat
                    (set_currentStarter starter
                       (set_timeRemaining t (set_stage s g)))))
       /\ stage g' = s /\ timeRemaining g' = t /\ currentStarter g' = starter
       /\ currentPlayerIndex g'
          = ((currentPlayerIndex g + 1) mod List.length (players g))%nat
       /\ responded g' = false /\ response g' = None
       /\ players g' = players g /\ plays g' = plays g
       /\ used_words g' = used_words g
       /\ (running g = true -> main_msg g <> None ->
           snd (advance words pick g) = AwaitEditNextup).
Proof.
  intros Hplays Hne Hlong Hlen s g'.
  split; [apply stage_range, Hplays |].
  destruct (advance_draws words pick (plays g) long Hplays Hlong Hlen)
    as (t & starter & Ht & Hl & Hc & Hst).
  pose proof (starters_at_length _ _ _ Hst) as Hone.
  apply starters_at_spec in Hst. destruct Hst as (word & Hw & Hwl & Hsub).
  pose proof (stage_range (plays g) Hplays) as Hs.
  pose proof (advance_unfold words pick g t _ starter Ht Hl Hc Hne) as E.
  exists t, starter, word. subst s g'.
  split; [exact Ht |]. split; [exact Hw |]. split; [lia |].
  split; [exact Hsub |]. split; [exact Hone |]. split; [exact E |].
  rewrite E, loop_head_same. cbn.
  repeat split.
  intros Hr Hm. apply loop_head_goes_on; cbn; try assumption.
  apply Nat.mod_upper_bound. destruct (players g); [congruence | discriminate].
Qed.

(** The theorem at the table of users 1 and 2 after "ab" has been accepted
    from user 1: the stage stays 1, the clock is back at its budget, the
    answer is cleared and user 2 is next. *)
Lemma advance_next_turn_witness :
  let g' := fst (advance small_words 0 accepted_game) in
  exists t starter word,
    timeStageRelation 1 = Some t
    /\ word ∈ small_words /\ (1 <= String.length word)%nat
    /\ starter = String.substring 0 1 word
    /\ String.length starter = 1%nat
    /\ advance small_words 0 accepted_game
       = loop_head
           (set_response None false
              (set_currentPlayerIndex 1%nat
                 (set_currentStarter starter
                    (set_timeRemaining t (set_stage 1 accepted_game)))))
    /\ stage g' = 1 /\ timeRemaining g' = t /\ currentStarter g' = starter
    /\ currentPlayerIndex g' = 1%nat
    /\ responded g' = false /\ response g' = None
    /\ players g' = players accepted_game /\ plays g' = 1
    /\ used_words g' = used_words accepted_game
    /\ (running accepted_game = true -> main_msg accepted_game <> None ->
        snd (advance small_words 0 accepted_game) = AwaitEditNextup).
Proof.
  refine (proj2 (advance_next_turn small_words 0 accepted_game "ab" _ _ _ _)).
  - simpl. lia.
  - discriminate.
  - unfold small_words. set_solver.
  - vm_compute. lia.
Defined.

(** X21.  When no dictionary word is as long as the new stage number, the table
    of that stage is empty and the advance step dies with [IndexError]
    from [random.choice]. *)
Theorem advance_empty_table (words : gset string) (pick : nat)
    (g : wordbombGame) :
  0 <= plays g ->
  (forall word, word ∈ words ->
     (String.length word < Z.to_nat (Z.min 7 (plays g / 10 + 1)))%nat) ->
  snd (advance words pick g) = Crashed IndexError.
Proof.
  intros Hplays Hshort.
  pose proof (stage_range (plays g) Hplays) as Hs.
  destruct (timeStageRelation_defined _ Hs) as [t Ht].
  unfold advance. cbv zeta. simpl stage. rewrite Ht. simpl stage.
  rewrite (stageStartersRelation_defined words _ Hs).
  destruct (starters_at words _) as [| x l] eqn:El; [reflexivity |].
  assert (Hin : In x (starters_at words (Z.to_nat (Z.min 7 (plays g / 10 + 1)))))
    by (rewrite El; left; reflexivity).
  apply starters_at_spec in Hin. destruct Hin as (word & Hw & Hlen & _).
  specialize (Hshort word Hw). lia.
Qed.

Lemma advance_empty_table_witness :
  snd (advance small_words 0 (set_plays 30 lobby_game)) = Crashed IndexError.
Proof.
  apply advance_empty_table.
  - simpl. lia.
  - intros word Hw. unfold small_words in Hw. apply elem_of_union in Hw.
    destruct Hw as [Hw | Hw]; apply elem_of_singleton in Hw; rewrite Hw;
      vm_compute; lia.
Defined.

(** ** The countdown *)

Lemma set_countdown_same (g : wordbombGame) :
  set_countdown (countdown g - 0) g = g.
Proof. destruct g. unfold set_countdown. simpl. rewrite Z.sub_0_r. reflexivity. Qed.

(** X22.  With as many decrements to go as the coroutine is resumed, no handler
    running in between, the countdown takes exactly that many off
    [countdown] and changes nothing else; the next resumption enters the
    turn loop.  The start button launches it with five decrements from 10,
    so the game starts when the counter shows 5. *)
Theorem countdown_runs (words : gset string) (picks : list nat)
    (g : wordbombGame) (pick : nat) :
  resume_all words picks g (AwaitCountdown (List.length picks))
    = (set_countdown (countdown g - Z.of_nat (List.length picks)) g,
       AwaitCountdown 0)
  /\ task_step words pick (AwaitCountdown 0) g = loop_head g.
Proof.
  split; [| reflexivity].
  revert g. induction picks as [| p picks IH]; intros g.
  - simpl. rewrite set_countdown_same. reflexivity.
  - cbn [List.length resume_all task_step fst snd]. rewrite IH.
    f_equal. unfold set_countdown. simpl. f_equal. lia.
Qed.

(** ** The per-turn wait *)

Lemma resume_all_app (words : gset string) (l1 l2 : list nat)
    (g : wordbombGame) (c : pc) :
  resume_all words (l1 ++ l2) g c
    = resume_all words l2 (fst (resume_all words l1 g c))
                          (snd (resume_all words l1 g c)).
Proof.
  revert g c. induction l1 as [| p l1 IH]; intros g c; simpl; [reflexivity |].
  apply IH.
Qed.

Lemma set_timeRemaining_same (g : wordbombGame) :
  set_timeRemaining (timeRemaining g) g = g.
Proof. destruct g. reflexivity. Qed.

Lemma still_waiting_prefix (n m : nat) (t : float) :
  (m <= n)%nat -> still_waiting n t = true -> still_waiting m t = true.
Proof.
  revert n t. induction m as [| m IH]; intros n t Hle H; [reflexivity |].
  destruct n as [| n]; [lia |]. simpl in *.
  apply andb_true_iff in H. destruct H as [H1 H2].
  rewrite H1. simpl. apply (IH n); [lia | exact H2].
Qed.

Lemma drain_last (n : nat) (t : float) :
  drain (S n) t = PrimFloat.sub (drain n t) 0x1.999999999999ap-4%float.
Proof.
  revert t. induction n as [| n IH]; intros t; [reflexivity |].
  change (drain (S (S n)) t)
    with (drain (S n) (PrimFloat.sub t 0x1.999999999999ap-4%float)).
  rewrite IH. reflexivity.
Qed.

(** While nobody answers and the clock has not run out, each resumption
    only takes 0.1 off [timeRemaining]. *)
Lemma polls_wait (words : gset string) (picks : list nat) (g : wordbombGame) :
  responded g = false ->
  still_waiting (List.length picks) (timeRemaining g) = true ->
  resume_all words picks g AwaitPoll
    = (set_timeRemaining (drain (List.length picks) (timeRemaining g)) g,
       AwaitPoll).
Proof.
  revert g. induction picks as [| p picks IH]; intros g Hr Hw.
  - simpl. rewrite set_timeRemaining_same. reflexivity.
  - simpl in Hw. apply andb_true_iff in Hw. destruct Hw as [H1 H2].
    apply negb_true_iff in H1.
    cbn [resume_all task_step]. unfold poll. cbv zeta.
    cbn [timeRemaining set_timeRemaining]. rewrite H1.
    unfold wait_check. cbn [responded set_timeRemaining]. rewrite Hr.
    cbn [fst snd]. rewrite IH; [reflexivity | exact Hr | exact H2].
Qed.

Lemma poll_times_out (words : gset string) (pick : nat) (g : wordbombGame)
    (p : Player) (h : handle) :
  PrimFloat.leb (PrimFloat.sub (timeRemaining g) 0x1.999999999999ap-4%float)
                0%float = true ->
  players g !! currentPlayerIndex g = Some p -> main_msg g = Some h ->
  task_step words pick AwaitPoll g
    = (set_players
         (<[currentPlayerIndex g := set_hearts (hearts p - 1) p]> (players g))
         (set_timeRemaining
            (PrimFloat.sub (timeRemaining g) 0x1.999999999999ap-4%float) g),
       AwaitTimeoutPause).
Proof.
  intros Ht Hp Hm. cbn [task_step]. unfold poll. cbv zeta.
  cbn [timeRemaining set_timeRemaining]. rewrite Ht.
  unfold lose_life. cbn [players currentPlayerIndex set_timeRemaining].
  rewrite Hp. unfold on_main_msg. cbn [main_msg set_players set_timeRemaining].
  rewrite Hm. reflexivity.
Qed.

(** X23.  How many sleeps of 0.1 a silent turn lasts, stage by stage: 81, 71, 61
    and 51 at stages 1 to 4 (one more than ten times the budget, because
    the repeated subtraction of 0.1 leaves a positive remainder), and 40,
    30 and 20 at stages 5 to 7.  Before that many resumptions the coroutine
    is still waiting; at that resumption the player on the clock loses
    exactly one life, nothing else in the roster changes, and the
    coroutine pauses. *)
Theorem silent_wait_length (words : gset string) (g : wordbombGame) (s : Z)
    (t : float) (p : Player) (h : handle) (picks : list nat) :
  timeStageRelation s = Some t ->
  timeRemaining g = t -> responded g = false ->
  players g !! currentPlayerIndex g = Some p -> main_msg g = Some h ->
  let sleeps := Z.to_nat (if s <=? 4 then 91 - 10 * s else 90 - 10 * s) in
  ((List.length picks < sleeps)%nat ->
     snd (resume_all words picks g AwaitPoll) = AwaitPoll)
  /\ (List.length picks = sleeps ->
      exists t',
        PrimFloat.leb t' 0%float = true
        /\ resume_all words picks g AwaitPoll
           = (set_players
                (<[currentPlayerIndex g := set_hearts (hearts p - 1) p]>
                   (players g))
                (set_timeRemaining t' g),
              AwaitTimeoutPause)).
Proof.
  intros Hs Ht Hr Hp Hm sleeps.
  assert (Htab : exists n, sleeps = S n
            /\ still_waiting n t = true
            /\ PrimFloat.leb (drain (S n) t) 0%float = true).
  { unfold timeStageRelation in Hs. subst sleeps.
    repeat match type of Hs with
           | (if ?b then _ else _) = _ =>
               let E := fresh "E" in
               destruct b eqn:E;
               [apply Z.eqb_eq in E; subst s; injection Hs as <-;
                eexists; repeat split; vm_compute; reflexivity |]
           end.
    discriminate. }
  destruct Htab as (n & Hn & Hw & Hout). rewrite Hn. subst t. split.
  - intros Hlt. rewrite polls_wait; [reflexivity | exact Hr |].
    apply (still_waiting_prefix n); [lia | exact Hw].
  - intros Hlen.
    destruct (List.rev picks) as [| last rest] eqn:Erev.
    { apply (f_equal (@List.length nat)) in Erev. rewrite length_rev in Erev.
      simpl in Erev. lia. }
    assert (Epicks : picks = List.rev rest ++ [last]).
    { rewrite <- (rev_involutive picks), Erev. reflexivity. }
    assert (Hrest : List.length (List.rev rest) = n).
    { rewrite Epicks, length_app in Hlen. simpl in Hlen. lia. }
    rewrite Epicks, resume_all_app.
    rewrite polls_wait; [| exact Hr | rewrite Hrest; exact Hw].
    rewrite Hrest. cbn [fst snd resume_all].
    exists (drain (S n) (timeRemaining g)). split; [exact Hout |].
    rewrite drain_last in *.
    rewrite (poll_times_out words last
               (set_timeRemaining (drain n (timeRemaining g)) g) p h);
      [reflexivity | exact Hout | exact Hp | exact Hm].
Qed.

Lemma silent_wait_length_witness :
  exists t',
    PrimFloat.leb t' 0%float = true
    /\ resume_all small_words (repeat 0%nat 81)
         (set_main_msg (Some 101%nat) lobby_game) AwaitPoll
       = (set_players [set_hearts 1 (Player_init 1 "Owner")]
            (set_timeRemaining t' (set_main_msg (Some 101%nat) lobby_game)),
          AwaitTimeoutPause).
Proof.
  refine (proj2 (silent_wait_length small_words
                   (set_main_msg (Some 101%nat) lobby_game) 1 8%float
                   (Player_init 1 "Owner") 101%nat (repeat 0%nat 81)
                   _ _ _ _ _) _); reflexivity.
Defined.

(** ** Elimination and the turn order *)

Lemma set_currentPlayerIndex_same (g : wordbombGame) :
  set_currentPlayerIndex (currentPlayerIndex g) g = g.
Proof. destruct g. reflexivity. Qed.

(** X24.  Elimination removes exactly the player on the clock and keeps the
    others in order; the index then designates the player who followed the
    eliminated one, or the first player when the eliminated one was the
    last of the roster. *)
Theorem eliminate_spec (g : wordbombGame) (before after : list Player)
    (p : Player) :
  players g = before ++ p :: after ->
  currentPlayerIndex g = List.length before ->
  eliminate g
    = (set_currentPlayerIndex
         (match after with [] => 0%nat | _ :: _ => List.length before end)
         (set_players (before ++ after) g),
       AwaitDiedPause).
Proof.
  intros Hp Hi. unfold eliminate. rewrite Hp, Hi.
  rewrite list_lookup_middle by reflexivity. cbv zeta.
  cbn [players currentPlayerIndex set_players]. rewrite Hi, delete_middle.
  rewrite length_app. destruct after as [| q after]; simpl.
  - rewrite Nat.add_0_r, Nat.leb_refl. reflexivity.
  - destruct (_ <=? _)%nat eqn:E; [apply Nat.leb_le in E; lia |].
    rewrite <- Hi.
    rewrite <- (set_currentPlayerIndex_same (set_players _ g)) at 1.
    reflexivity.
Qed.

Lemma eliminate_spec_witness :
  eliminate (set_players [Player_init 1 "Owner"; Player_init 2 "Player"] lobby_game)
    = (set_currentPlayerIndex 0%nat
         (set_players [Player_init 2 "Player"]
            (set_players [Player_init 1 "Owner"; Player_init 2 "Player"] lobby_game)),
       AwaitDiedPause).
Proof.
  refine (eliminate_spec
            (set_players [Player_init 1 "Owner"; Player_init 2 "Player"] lobby_game)
            [] [Player_init 2 "Player"] (Player_init 1 "Owner") _ _);
    reflexivity.
Defined.

(** X25.  After an elimination that leaves the game going, the advance step still
    moves the index one position on: the player who followed the
    eliminated one is passed over (unless alone), and after the
    elimination of the last of the roster it is the second player, not the
    first, who plays next. *)
Theorem turn_after_elimination (words : gset string) (pick1 pick2 : nat)
    (g : wordbombGame) (before after : list Player) (p : Player)
    (long : string) (h : handle) :
  players g = before ++ p :: after ->
  currentPlayerIndex g = List.length before ->
  before ++ after <> [] ->
  (List.length (before ++ after) <> 1%nat \/ singleplayer g = true) ->
  running g = true -> main_msg g = Some h ->
  0 <= plays g -> long ∈ words ->
  (Z.to_nat (Z.min 7 (plays g / 10 + 1)) <= String.length long)%nat ->
  let r := resume_all words [pick1; pick2] g AwaitDiedEdit in
  snd r = AwaitEditNextup
  /\ players (fst r) = before ++ after
  /\ currentPlayerIndex (fst r)
     = ((match after with [] => 0%nat | _ :: _ => List.length before end + 1)
          mod List.length (before ++ after))%nat.
Proof.
  intros Hp Hi Hne Hgo Hrun Hm Hplays Hlong Hlen.
  assert (He : eliminate g
               = (set_currentPlayerIndex
                    (match after with [] => 0%nat | _ :: _ => List.length before end)
                    (set_players (before ++ after) g),
                  AwaitDiedPause)).
  { unfold eliminate. rewrite Hp, Hi.
    rewrite list_lookup_middle by reflexivity. cbv zeta.
    cbn [players currentPlayerIndex set_players]. rewrite Hi, delete_middle.
    rewrite length_app. destruct after as [| q k]; simpl.
    - rewrite Nat.add_0_r, Nat.leb_refl. reflexivity.
    - destruct (_ <=? _)%nat eqn:E; [apply Nat.leb_le in E; lia |].
      rewrite <- Hi. destruct g; reflexivity. }
  cbn [resume_all task_step]. rewrite He.
  cbn [fst snd task_step]. set (g1 := set_currentPlayerIndex _ _).
  unfold win_check.
  assert (Hw : (List.length (players g1) =? 1)%nat && negb (singleplayer g1) = false).
  { subst g1. simpl. destruct Hgo as [Hgo | Hgo].
    - apply Nat.eqb_neq in Hgo. rewrite Hgo. reflexivity.
    - rewrite Hgo. apply andb_false_r. }
  rewrite Hw.
  destruct (advance_draws words pick2 (plays g1) long)
    as (t & starter & Ht & Hl & Hc & _); try assumption.
  rewrite (advance_unfold words pick2 g1 t _ starter Ht Hl Hc Hne).
  set (g2 := set_response _ _ _).
  assert (Hi2 : (currentPlayerIndex g2 < List.length (players g2))%nat).
  { subst g2 g1. simpl. apply Nat.mod_upper_bound.
    destruct (before ++ after); [congruence | discriminate]. }
  unfold loop_head, on_main_msg.
  replace (running g2) with true by (symmetry; exact Hrun).
  replace (main_msg g2) with (Some h) by (symmetry; exact Hm).
  destruct (lookup_lt_is_Some_2 _ _ Hi2) as [q Hq]. rewrite Hq.
  destruct (players g2) as [| x k] eqn:E.
  - subst g2 g1. simpl in E. contradiction.
  - repeat split.
Qed.

Lemma turn_after_elimination_witness :
  let g := set_main_msg (Some 101%nat)
             (set_players [Player_init 1 "Owner"; Player_init 2 "Player";
                           Player_init 3 "Player"] lobby_game) in
  let r := resume_all small_words [0%nat; 0%nat] g AwaitDiedEdit in
  snd r = AwaitEditNextup
  /\ players (fst r) = [Player_init 2 "Player"; Player_init 3 "Player"]
  /\ currentPlayerIndex (fst r) = 1%nat.
Proof.
  intros g.
  refine (turn_after_elimination small_words 0 0 g []
            [Player_init 2 "Player"; Player_init 3 "Player"]
            (Player_init 1 "Owner") "ab" 101%nat _ _ _ _ _ _ _ _ _).
  - reflexivity.
  - reflexivity.
  - discriminate.
  - left. simpl. lia.
  - reflexivity.
  - reflexivity.
  - simpl. lia.
  - unfold small_words. set_solver.
  - vm_compute. lia.
Defined.

(** ** The sole survivor *)

(** X26.  When the elimination test leaves a one-player roster in a game that is
    not flagged [singleplayer], the game is over: three resumptions later
    the coroutine has returned, [running] is cleared and nothing else in
    the game object has changed, and the winner shown is that player. *)
Theorem sole_survivor_wins (words : gset string) (pick1 pick2 pick3 : nat)
    (g : wordbombGame) (p : Player) (h j : handle) :
  players g = [p] -> singleplayer g = false ->
  main_msg g = Some h -> join_msg g = Some j ->
  resume_all words [pick1; pick2; pick3] g AwaitDiedPause
    = (set_running false g, Returned)
  /\ snd (resume_all words [pick1] g AwaitDiedPause) = AwaitWinsEdit
  /\ gameOver_winner g = Some (id p).
Proof.
  intros Hp Hs Hm Hj.
  assert (Hw : win_check words pick1 g = (g, AwaitWinsEdit)).
  { unfold win_check, on_main_msg. rewrite Hp, Hs, Hm. reflexivity. }
  cbn [resume_all task_step]. rewrite Hw. cbn [fst snd task_step].
  unfold gameOver_begin, on_main_msg. rewrite Hm. cbn [fst snd task_step].
  rewrite Hj. repeat split. unfold gameOver_winner. rewrite Hp. reflexivity.
Qed.

Lemma sole_survivor_wins_witness :
  resume_all small_words [0%nat; 0%nat; 0%nat]
      (set_main_msg (Some 101%nat) lobby_game) AwaitDiedPause
    = (set_running false (set_main_msg (Some 101%nat) lobby_game), Returned)
  /\ snd (resume_all small_words [0%nat]
            (set_main_msg (Some 101%nat) lobby_game) AwaitDiedPause)
     = AwaitWinsEdit
  /\ gameOver_winner (set_main_msg (Some 101%nat) lobby_game) = Some 1.
Proof.
  refine (sole_survivor_wins small_words 0 0 0
            (set_main_msg (Some 101%nat) lobby_game) (Player_init 1 "Owner")
            101%nat 100%nat _ _ _ _); reflexivity.
Defined.

(** * Invariants along runs *)

(** X27.  [currentPlayerIndex] stays inside the roster: if in every game object
    the index designates a roster entry (or is 0 on an empty roster), the
    same holds after every run of the coroutine and the handlers. *)
Theorem run_keeps_index_ok (words : gset string) (l : list action) (s : system) :
  Forall index_ok (heap (sys_world s)) ->
  Forall index_ok (heap (sys_world (run words l s))).
Proof.
  apply run_preserves;
    [apply index_ok_touched | auto | auto | auto | apply index_ok_lose
    | auto | apply index_ok_eliminate | apply (index_ok_advance words)].
Qed.

Lemma run_keeps_index_ok_witness :
  Forall index_ok
    (heap (sys_world (run small_words (through_countdown ++ silent_turn) duel))).
Proof.
  apply run_keeps_index_ok. vm_compute. repeat constructor.
Defined.

(** X28.  Consequently [on_message] never fails, whatever the message, in any
    state reached from games whose index is inside the roster: the
    [IndexError] of [players[currentPlayerIndex]] cannot occur. *)
Theorem on_message_never_raises (words : gset string) (l : list action)
    (s : system) (m : Message) :
  Forall index_ok (heap (sys_world s)) ->
  snd (on_message m (sys_world (run words l s))) = Ok tt.
Proof.
  intros H. unfold on_message. simpl. apply on_message_loop_ok.
  revert H.
  apply run_preserves;
    [apply index_ok_touched | auto | auto | auto | apply index_ok_lose
    | auto | apply index_ok_eliminate | apply (index_ok_advance words)].
Qed.

Lemma on_message_never_raises_witness :
  snd (on_message (say 2 "ab")
         (sys_world (run small_words (through_countdown ++ silent_turn) duel)))
    = Ok tt.
Proof.
  apply on_message_never_raises. vm_compute. repeat constructor.
Defined.


Lemma words_ok_fresh (words : gset string) (uid cid gid : Z) (starter : string)
    (h : option handle) :
  words_ok words (set_join_msg h (init_fields uid cid gid starter)).
Proof.
  split; [reflexivity |]. intros w Hw. simpl in Hw.
  apply not_elem_of_empty in Hw. contradiction.
Qed.

Lemma run_keeps_words_ok_witness :
  Forall (words_ok small_words)
    (heap (sys_world
             (run small_words (through_countdown ++ answered_turn (say 1 "ab"))
                  solo))).
Proof.
  apply run_keeps_words_ok. unfold solo, launched. simpl.
  constructor; [| constructor]. split; [reflexivity |].
  intros x Hx. simpl in Hx. apply not_elem_of_empty in Hx. contradiction.
Defined.


Lemma run_keeps_lives_at_most_two_witness :
  Forall lives_at_most_two
    (heap (sys_world (run small_words (through_countdown ++ silent_turn) duel))).
Proof.
  apply run_keeps_lives_at_most_two. vm_compute.
  repeat constructor; discriminate.
Defined.


Lemma run_keeps_roster_distinct_witness :
  Forall roster_distinct
    (heap (sys_world
             (run small_words (through_countdown ++ [Deliver (JoinPressed (join_press 3))])
                  duel))).
Proof.
  apply run_keeps_roster_distinct. vm_compute.
  repeat constructor; intros H; inversion H; subst;
    match goal with
    | H : _ ∈ [] |- _ => inversion H
    | H : _ ∈ [_] |- _ => inversion H; subst;
                          match goal with H' : _ ∈ [] |- _ => inversion H' end
    end.
Defined.

(** X29.  A word that has been used is rejected for the rest of the game,
    whatever happens in between. *)
Theorem used_word_stays_rejected (words : gset string) (l : list action)
    (s : system) (g : wordbombGame) (w : string) :
  game_of s = Some g -> w ∈ used_words g ->
  exists g', game_of (run words l s) = Some g'
             /\ w ∈ used_words g'
             /\ accepts words g' w = false.
Proof.
  intros Hg Hw.
  destruct (run_invariant words (fun _ g' => w ∈ used_words g') (fun _ _ => True))
    with (l := l) (s := s) (g := g) as (g' & Hg' & Hw').
  - intros c g1 g2 (m & b & k & -> & _ & _) H. exact H.
  - intros pick c g1 H _.
    destruct (grows_task words pick c g1) as (_ & _ & _ & _ & _ & _ & Hsub & _).
    apply Hsub, H.
  - exact Hg.
  - exact Hw.
  - apply resumes_when_always.
  - exists g'. split; [exact Hg' |]. split; [exact Hw' |].
    apply accepts_false_iff. intros (_ & Hn & _). exact (Hn Hw').
Qed.

Lemma used_word_stays_rejected_witness :
  exists g',
    game_of (run small_words silent_turn
               (run small_words
                  (through_countdown ++ answered_turn (say 1 "ab")) solo))
      = Some g'
    /\ "ab"%string ∈ used_words g'
    /\ accepts small_words g' "ab" = false.
Proof.
  refine (used_word_stays_rejected small_words silent_turn
            (run small_words (through_countdown ++ answered_turn (say 1 "ab")) solo)
            _ "ab" _ _).
  - vm_compute. reflexivity.
  - simpl. set_solver.
Defined.

Lemma gameOver_has_a_winner_witness :
  exists g' p,
    game_of (run small_words
               (through_countdown ++ silent_turn ++ silent_turn
                  ++ until_timeout ++ resumes 4) duel) = Some g'
    /\ gameOver_winner g' = Some p.
Proof.
  refine (gameOver_has_a_winner small_words
            (through_countdown ++ silent_turn ++ silent_turn
               ++ until_timeout ++ resumes 4) duel _ _ _ _).
  - vm_compute. reflexivity.
  - simpl. discriminate.
  - vm_compute. reflexivity.
Defined.

Lemma solo_game_never_finishes_witness :
  let s := run small_words
             (through_countdown ++ silent_turn ++ until_timeout ++ resumes 3)
             solo in
  sys_pc s <> AwaitWinsEdit /\ sys_pc s <> AwaitGameOver /\ sys_pc s <> Returned
  /\ running <$> game_of s = Some true.
Proof.
  refine (solo_game_never_finishes small_words
            (through_countdown ++ silent_turn ++ until_timeout ++ resumes 3)
            solo _ _ _).
  - vm_compute. reflexivity.
  - repeat split. simpl. discriminate.
Defined.

Lemma lives_stay_positive_witness :
  exists g',
    game_of (run small_words (through_countdown ++ silent_turn) duel) = Some g'
    /\ lives_inv (sys_pc (run small_words (through_countdown ++ silent_turn) duel)) g'
    /\ none_negative g'.
Proof.
  refine (lives_stay_positive small_words (through_countdown ++ silent_turn)
            duel _ _ _ _).
  - vm_compute. reflexivity.
  - simpl. repeat constructor; discriminate.
  - vm_compute.
    repeat (split;
            [intros g0 Hg0 Hc;
             first [discriminate Hc | injection Hg0 as <-; reflexivity] |]).
    exact I.
Defined.

(** ** The start button and the [singleplayer] flag *)

Lemma start_lookup (w : world) (i : Interaction) (pre post : list (Z * ref))
    (h : Z) (r : ref) (g : wordbombGame) :
  games w = pre ++ (h, r) :: post ->
  heap w !! r = Some g ->
  custom_id i = (str (gameID g) ++ "###")%string ->
  (forall k r' g', (k, r') ∈ pre -> heap w !! r' = Some g' ->
                   (str (gameID g') ++ "###")%string <> custom_id i) ->
  List.find (fun rg => String.eqb (str (gameID (snd rg)) ++ "###") (custom_id i))
            (games_values w) = Some (r, g).
Proof.
  intros Hg Hr Hid Hpre.
  destruct (games_values_split w pre post h r g Hg Hr) as (vpre & vpost & Hv & Hvpre).
  rewrite Hv. apply find_skip.
  - intros [r' g'] Hin. simpl. apply String.eqb_neq.
    destruct (Hvpre r' g' Hin) as [Hh [k Hk]]. exact (Hpre k r' g' Hk Hh).
  - simpl. apply String.eqb_eq. symmetry. exact Hid.
Qed.

(** X30.  A press of the start button of a game whose roster has exactly one
    player sets that game's [singleplayer] flag, whoever presses and
    whatever the answer is; apart from the flag, and from [main_msg] when
    the countdown begins, nothing in the world changes. *)
Theorem start_press_sets_singleplayer (w : world) (i : Interaction)
    (pre post : list (Z * ref)) (h : Z) (r : ref) (g : wordbombGame) :
  games w = pre ++ (h, r) :: post ->
  heap w !! r = Some g ->
  custom_id i = (str (gameID g) ++ "###")%string ->
  (forall k r' g', (k, r') ∈ pre -> heap w !! r' = Some g' ->
                   (str (gameID g') ++ "###")%string <> custom_id i) ->
  List.length (players g) = 1%nat ->
  (snd (startGameCountdown i w) = Ok (CountdownBegun r)
   /\ fst (startGameCountdown i w)
      = store r (set_main_msg (Some (reply i)) (set_singleplayer true g)) w)
  \/ ((snd (startGameCountdown i w) = Ok AlreadyStarted
       \/ snd (startGameCountdown i w) = Ok NotHost)
      /\ fst (startGameCountdown i w) = store r (set_singleplayer true g) w).
Proof.
  intros Hg Hr Hid Hpre Hone. unfold startGameCountdown.
  rewrite (start_lookup w i pre post h r g Hg Hr Hid Hpre).
  apply Nat.eqb_eq in Hone. rewrite Hone.
  destruct (stage _ =? 1); [right; split; [left |]; reflexivity |].
  destruct (negb _); [right; split; [right |]; reflexivity |].
  left. split; reflexivity.
Qed.

Lemma start_press_sets_singleplayer_witness :
  (snd (startGameCountdown (start_press 2) lobby_world) = Ok (CountdownBegun 0%nat)
   /\ fst (startGameCountdown (start_press 2) lobby_world)
      = store 0%nat (set_main_msg (Some (reply (start_press 2)))
                       (set_singleplayer true lobby_game)) lobby_world)
  \/ ((snd (startGameCountdown (start_press 2) lobby_world) = Ok AlreadyStarted
       \/ snd (startGameCountdown (start_press 2) lobby_world) = Ok NotHost)
      /\ fst (startGameCountdown (start_press 2) lobby_world)
         = store 0%nat (set_singleplayer true lobby_game) lobby_world).
Proof.
  refine (start_press_sets_singleplayer lobby_world (start_press 2) [] [] 1
            0%nat lobby_game _ _ _ _ _).
  - reflexivity.
  - reflexivity.
  - reflexivity.
  - intros k r' g' Hin. inversion Hin.
  - reflexivity.
Defined.

(** * From the chat message to the verdict *)

(** ** Routing chat messages *)

(** The loop body stores a message of the player on the clock. *)
Lemma on_message_game_stores (m : Message) (g : wordbombGame) (p : Player) :
  channelID g = channel m ->
  players g !! currentPlayerIndex g = Some p -> id p = author m ->
  on_message_game m g = Ok (set_response (Some m) true g).
Proof.
  intros Hc Hp Hid. unfold on_message_game.
  apply Z.eqb_eq in Hc. rewrite Hc.
  assert (Hex : existsb (fun q => id q =? author m) (players g) = true).
  { apply existsb_exists. exists p. split.
    - apply list_elem_of_In. eapply list_elem_of_lookup_2, Hp.
    - apply Z.eqb_eq, Hid. }
  rewrite Hex, Hp. apply Z.eqb_eq in Hid. rewrite Hid. reflexivity.
Qed.

(** The loop body leaves every other game as it is, or raises. *)
Lemma on_message_game_ignores (m : Message) (g g' : wordbombGame) :
  ~ (channelID g = channel m
     /\ exists p, players g !! currentPlayerIndex g = Some p
                  /\ id p = author m) ->
  on_message_game m g = Ok g' -> g' = g.
Proof.
  intros Hn. unfold on_message_game.
  destruct (channelID g =? channel m) eqn:Hc; [| congruence].
  destruct (existsb _ _); [| congruence].
  destruct (players g !! currentPlayerIndex g) as [p |] eqn:Hp; [| discriminate].
  destruct (id p =? author m) eqn:Hid; [| congruence].
  exfalso. apply Hn. split; [apply Z.eqb_eq, Hc |].
  exists p. split; [reflexivity | apply Z.eqb_eq, Hid].
Qed.

Lemma on_message_game_elsewhere (m : Message) (g : wordbombGame) :
  channelID g <> channel m -> on_message_game m g = Ok g.
Proof.
  intros Hc. unfold on_message_game. apply Z.eqb_neq in Hc. rewrite Hc.
  reflexivity.
Qed.

Lemma on_message_loop_keeps (m : Message) (rs : list (Z * ref))
    (h : list wordbombGame) (r : ref) (g : wordbombGame) :
  ~ (channelID g = channel m
     /\ exists p, players g !! currentPlayerIndex g = Some p
                  /\ id p = author m) ->
  h !! r = Some g ->
  fst (on_message_loop m rs h) !! r = Some g.
Proof.
  intros Hn. revert h. induction rs as [| [k r'] rs IH]; intros h Hr.
  - exact Hr.
  - simpl. destruct (h !! r') as [g' |] eqn:Hr'; [| apply IH, Hr].
    destruct (on_message_game m g') as [g'' | e] eqn:Hg; [| exact Hr].
    apply IH. destruct (decide (r' = r)) as [-> | Hne].
    + assert (g' = g) by congruence. subst g'.
      rewrite (on_message_game_ignores m g g'' Hn Hg).
      rewrite list_lookup_insert_eq; [reflexivity |].
      eapply lookup_lt_Some, Hr.
    + rewrite list_lookup_insert_ne; [exact Hr | exact Hne].
Qed.

Lemma on_message_loop_stores (m : Message) (rs : list (Z * ref))
    (h : list wordbombGame) (r : ref) (g g0 : wordbombGame) (p : Player) :
  channelID g = channel m ->
  players g !! currentPlayerIndex g = Some p -> id p = author m ->
  (forall k r' g', (k, r') ∈ rs -> r' <> r -> h !! r' = Some g' ->
                   channelID g' <> channel m) ->
  h !! r = Some g0 ->
  g0 = set_response (Some m) true g \/ (g0 = g /\ exists k, (k, r) ∈ rs) ->
  fst (on_message_loop m rs h) !! r = Some (set_response (Some m) true g).
Proof.
  intros Hc Hp Hid. revert h g0.
  induction rs as [| [k r'] rs IH]; intros h g0 Hothers Hr Hg0.
  - destruct Hg0 as [-> | [_ [k Hk]]]; [exact Hr | inversion Hk].
  - simpl. destruct (decide (r' = r)) as [-> | Hne].
    + rewrite Hr.
      assert (E : on_message_game m g0 = Ok (set_response (Some m) true g)).
      { destruct Hg0 as [-> | [-> _]].
        - apply (on_message_game_stores m (set_response (Some m) true g) p);
            assumption.
        - apply (on_message_game_stores m g p); assumption. }
      rewrite E. apply (IH _ (set_response (Some m) true g)).
      * intros k' r' g' Hin Hne Hr'.
        rewrite list_lookup_insert_ne in Hr' by congruence.
        apply (Hothers k' r' g'); [right; exact Hin | exact Hne | exact Hr'].
      * apply list_lookup_insert_eq. eapply lookup_lt_Some, Hr.
      * left. reflexivity.
    + assert (Hrest : g0 = set_response (Some m) true g
                      \/ (g0 = g /\ exists k, (k, r) ∈ rs)).
      { destruct Hg0 as [-> | [-> [k0 Hk0]]]; [left; reflexivity | right].
        split; [reflexivity |]. exists k0.
        apply elem_of_cons in Hk0. destruct Hk0 as [Heq | Hk0]; [| exact Hk0].
        congruence. }
      assert (Hothers' : forall k r' g', (k, r') ∈ rs -> r' <> r ->
                h !! r' = Some g' -> channelID g' <> channel m).
      { intros k' r'' g' Hin. apply (Hothers k' r'' g'). right. exact Hin. }
      destruct (h !! r') as [g' |] eqn:Hr'.
      * rewrite (on_message_game_elsewhere m g').
        -- assert (E : <[r' := g']> h = h) by apply list_insert_id, Hr'.
           rewrite E. apply (IH h g0 Hothers' Hr Hrest).
        -- apply (Hothers k r' g'); [left | exact Hne | exact Hr'].
      * apply (IH h g0 Hothers' Hr Hrest).
Qed.

(** C7, as amended.  Take a session that is registered in [games] and is
    the only registered game of its room.  A message sent in that room by
    the roster entry at [currentPlayerIndex], while the session's coroutine
    is in the wait of its turn and no answer is pending, is stored as the
    pending answer: [responded] becomes true, [response] is the message,
    every other attribute is as before.  A message sent in another room, or
    by anyone but the roster entry at [currentPlayerIndex], leaves the
    session as it was, and so does every message once the session is no
    longer in [games].  The coroutine is not resumed by a message. *)
Theorem on_message_stores_answer (words : gset string) (s : system)
    (m : Message) (g : wordbombGame) :
  game_of s = Some g ->
  let registered := exists k, (k, sys_task s) ∈ games (sys_world s) in
  let alone_in_room :=
    forall k r g', (k, r) ∈ games (sys_world s) -> r <> sys_task s ->
      heap (sys_world s) !! r = Some g' -> channelID g' <> channel m in
  let on_clock :=
    channelID g = channel m
    /\ exists p, players g !! currentPlayerIndex g = Some p
                 /\ id p = author m in
  let s' := step words (Deliver (MessageSent m)) s in
  (registered -> alone_in_room -> on_clock ->
   in_turn_wait (sys_pc s) -> responded g = false ->
     exists g', game_of s' = Some g'
       /\ responded g' = true /\ response g' = Some m
       /\ same_but_answer g g')
  /\ (~ on_clock -> game_of s' = Some g)
  /\ (~ registered -> game_of s' = Some g)
  /\ sys_pc s' = sys_pc s /\ sys_task s' = sys_task s.
Proof.
  intros Hg registered alone_in_room on_clock s'.
  unfold game_of in *. subst s'. simpl.
  split; [| split; [| split; [| split; reflexivity]]].
  - intros Hreg Halone [Hc (p & Hp & Hid)] _ _.
    exists (set_response (Some m) true g). split.
    + apply (on_message_loop_stores m _ _ _ g g p Hc Hp Hid Halone Hg).
      right. split; [reflexivity | exact Hreg].
    + repeat split.
  - intros Hn. apply (on_message_loop_keeps m _ _ _ g Hn Hg).
  - intros Hn. rewrite on_message_loop_other_refs; [exact Hg |].
    intros Hin. apply Hn. apply list_elem_of_fmap in Hin.
    destruct Hin as ([k r] & Heq & Hin). simpl in Heq. subst r.
    exists k. exact Hin.
Qed.

(** The theorem at the table: user 1 is on the clock and writes "ab". *)
Lemma on_message_stores_answer_witness :
  exists g',
    game_of (step small_words (Deliver (MessageSent (say 1 "ab"))) table)
      = Some g'
    /\ responded g' = true /\ response g' = Some (say 1 "ab")
    /\ same_but_answer table_game g'.
Proof.
  refine (proj1 (on_message_stores_answer small_words table (say 1 "ab")
                   table_game _) _ _ _ _ _).
  - vm_compute. reflexivity.
  - exists 1. vm_compute. left.
  - intros k r g' Hin Hne. vm_compute in Hin, Hne.
    apply list_elem_of_singleton in Hin. congruence.
  - split; [reflexivity |]. exists (Player_init 1 "Owner").
    split; reflexivity.
  - left. vm_compute. reflexivity.
  - reflexivity.
Defined.

(** C7 as stated fails.  At the table user 1 is on the clock and writes
    "ab", which is stored; user 1 then writes "zz" while "ab" is pending,
    and "zz" takes its place.  A message of user 1 is also stored while the
    countdown is still running, and in a lobby where nobody has pressed
    start. *)
Lemma on_message_ignores_phase_and_pending :
  let first := step small_words (Deliver (MessageSent (say 1 "ab"))) table in
  let second := step small_words (Deliver (MessageSent (say 1 "zz"))) first in
  let early := step small_words (Deliver (MessageSent (say 1 "ab"))) duel in
  (responded <$> game_of first) = Some true
  /\ (response <$> game_of first) = Some (Some (say 1 "ab"))
  /\ (response <$> game_of second) = Some (Some (say 1 "zz"))
  /\ say 1 "zz" <> say 1 "ab"
  /\ sys_pc duel = AwaitCountdown 5
  /\ (responded <$> game_of duel) = Some false
  /\ (responded <$> game_of early) = Some true
  /\ (response <$> game_of early) = Some (Some (say 1 "ab"))
  /\ main_msg lobby_game = None
  /\ fst (on_message (say 1 "ab") lobby_world)
       = {| games := [(1, 0%nat)];
            heap := [set_response (Some (say 1 "ab")) true lobby_game] |}.
Proof. vm_compute. repeat split. discriminate. Qed.

(** ** The answered block *)

Lemma eliminate_check_fields (words : gset string) (pick : nat)
    (g : wordbombGame) :
  let r := eliminate_check words pick g in
  players (fst r) = players g /\ used_words (fst r) = used_words g
  /\ plays (fst r) = plays g /\ snd r <> AwaitReaction.
Proof.
  unfold eliminate_check.
  destruct (players g !! currentPlayerIndex g) as [p |];
    [| simpl; repeat split; discriminate].
  destruct (hearts p =? 0).
  - destruct (on_main_msg_outcome g g AwaitDiedEdit) as [-> | ->];
      simpl; repeat split; discriminate.
  - unfold win_check.
    destruct ((List.length (players g) =? 1)%nat && negb (singleplayer g)).
    + destruct (on_main_msg_outcome g g AwaitWinsEdit) as [-> | ->];
        simpl; repeat split; discriminate.
    + pose proof (advance_fields words pick g) as (Hp & Hu & Hn & _).
      repeat split; try assumption.
      destruct (advance_outcome words pick g)
        as [[e He] | (_ & [[He _] | [He _]])]; rewrite He; discriminate.
Qed.

(** With an answer pending the resumption runs lines 158-170 on the game
    as the wait loop leaves it: [g], or [g] with the clock one sleep
    further. *)
Lemma answer_pending_resolve (words : gset string) (pick : nat) (c : pc)
    (g : wordbombGame) :
  answer_pending c g ->
  exists g0,
    task_step words pick c g = resolve words pick g0
    /\ responded g0 = true /\ response g0 = response g
    /\ players g0 = players g /\ used_words g0 = used_words g
    /\ plays g0 = plays g /\ currentStarter g0 = currentStarter g
    /\ currentPlayerIndex g0 = currentPlayerIndex g
    /\ main_msg g0 = main_msg g.
Proof.
  intros [Hr [-> | [-> | [-> Ht]]]].
  - exists g. simpl. unfold wait_check. rewrite Hr. repeat split; assumption.
  - exists g. repeat split; assumption.
  - eexists (set_timeRemaining _ g). simpl. unfold poll. cbv zeta.
    simpl timeRemaining. rewrite Ht. unfold wait_check. simpl responded.
    rewrite Hr. repeat split; assumption.
Qed.

Lemma accepts_same (words : gset string) (g g0 : wordbombGame) (w : string) :
  used_words g0 = used_words g -> currentStarter g0 = currentStarter g ->
  accepts words g0 w = accepts words g w.
Proof. intros H1 H2. unfold accepts. rewrite H1, H2. reflexivity. Qed.

(** C2.  The coroutine resumes with an answer pending, [m], and [p] on the
    clock; [w] is the lowercased text of [m].  When [w] has at least two
    characters, is not in [used_words], starts with the lowercased prefix
    and is a dictionary word, the answer is accepted: when the coroutine
    next suspends, exactly [w] has been added to [used_words], [plays] has
    grown by one and the roster (so every player's lives) is as before.  In
    every other case the answer is rejected: the coroutine suspends on the
    reaction with [used_words], [plays] and the roster as before, and its
    next resumption takes exactly one life from [p], whose identity and
    status stay, and leaves every other roster entry, [used_words] and
    [plays] as before. *)
Theorem answered_turn_spec (words : gset string) (pick pick' : nat) (c : pc)
    (g : wordbombGame) (m : Message) (p : Player) :
  answer_pending c g ->
  response g = Some m ->
  players g !! currentPlayerIndex g = Some p ->
  let w := lower (content m) in
  let ok := (2 <= String.length w)%nat /\ (w ∉ used_words g)
            /\ startswith w (lower (currentStarter g)) = true /\ w ∈ words in
  let g1 := fst (task_step words pick c g) in
  let c1 := snd (task_step words pick c g) in
  let g2 := fst (task_step words pick' AwaitReaction g1) in
  let c2 := snd (task_step words pick' AwaitReaction g1) in
  (ok ->
     c1 <> AwaitReaction
     /\ used_words g1 = {[w]} ∪ used_words g
     /\ plays g1 = plays g + 1
     /\ players g1 = players g)
  /\ (~ ok ->
     c1 = AwaitReaction
     /\ used_words g1 = used_words g
     /\ plays g1 = plays g
     /\ players g1 = players g
     /\ (c2 = AwaitRejectPause \/ c2 = Crashed AttributeError)
     /\ (exists p', players g2 !! currentPlayerIndex g = Some p'
           /\ hearts p' = hearts p - 1
           /\ id p' = id p /\ status p' = status p)
     /\ (forall k, k <> currentPlayerIndex g ->
           players g2 !! k = players g !! k)
     /\ used_words g2 = used_words g
     /\ plays g2 = plays g).
Proof.
  intros Hpend Hm Hp w ok g1 c1 g2 c2.
  destruct (answer_pending_resolve words pick c g Hpend)
    as (g0 & Hstep & Hr0 & Hm0 & Hp0 & Hu0 & Hn0 & Hs0 & Hi0 & Hmm0).
  rewrite Hm in Hm0.
  split; intros Hok.
  - apply accepts_true_iff in Hok.
    rewrite <- (accepts_same words g g0 w Hu0 Hs0) in Hok.
    subst g1 c1. rewrite Hstep.
    rewrite (resolve_accepted words pick g0 m Hr0 Hm0 Hok).
    pose proof (eliminate_check_fields words pick (accept_answer w g0))
      as (H1 & H2 & H3 & H4).
    fold w. repeat split.
    + exact H4.
    + rewrite H2. simpl. rewrite Hu0. reflexivity.
    + rewrite H3. simpl. rewrite Hn0. reflexivity.
    + rewrite H1. simpl. exact Hp0.
  - apply accepts_false_iff in Hok.
    rewrite <- (accepts_same words g g0 w Hu0 Hs0) in Hok.
    assert (E : task_step words pick c g = (g0, AwaitReaction)).
    { rewrite Hstep. unfold resolve. rewrite Hr0, Hm0. fold w.
      rewrite Hok. reflexivity. }
    subst g2 c2 g1 c1. rewrite E. cbn [fst snd].
    split; [reflexivity |]. split; [exact Hu0 |]. split; [exact Hn0 |].
    split; [exact Hp0 |].
    cbn [task_step]. unfold lose_life. rewrite Hi0, Hp0, Hp.
    match goal with
    | |- context [on_main_msg ?a (?b, ?k)] =>
        destruct (on_main_msg_outcome a b k) as [-> | ->]
    end; cbn [fst snd players used_words plays set_players];
      (split; [auto |]); (split; [| split; [| split]]);
      try assumption.
    all: try (eexists; split;
              [apply list_lookup_insert_eq; eapply lookup_lt_Some, Hp
              | repeat split]).
    all: try (intros k Hk; apply list_lookup_insert_ne; congruence).
Qed.

(** The theorem at the table: from user 1, "AB" is accepted after prefix
    "a" and "zz" is rejected. *)
Lemma answered_turn_spec_witness :
  let accepted := set_response (Some (say 1 "AB")) true table_game in
  let rejected := set_response (Some (say 1 "zz")) true table_game in
  let g1 := fst (task_step small_words 0 AwaitEditNextup accepted) in
  let c1 := snd (task_step small_words 0 AwaitEditNextup accepted) in
  let h1 := fst (task_step small_words 0 AwaitEditNextup rejected) in
  let d1 := snd (task_step small_words 0 AwaitEditNextup rejected) in
  let h2 := fst (task_step small_words 0 AwaitReaction h1) in
  let d2 := snd (task_step small_words 0 AwaitReaction h1) in
  (c1 <> AwaitReaction
   /\ used_words g1 = {["ab"%string]} ∪ used_words accepted
   /\ plays g1 = plays accepted + 1
   /\ players g1 = players accepted)
  /\ (d1 = AwaitReaction
      /\ used_words h1 = used_words rejected
      /\ plays h1 = plays rejected
      /\ players h1 = players rejected
      /\ (d2 = AwaitRejectPause \/ d2 = Crashed AttributeError)
      /\ (exists p', players h2 !! currentPlayerIndex rejected = Some p'
            /\ hearts p' = hearts (Player_init 1 "Owner") - 1
            /\ id p' = id (Player_init 1 "Owner")
            /\ status p' = status (Player_init 1 "Owner"))
      /\ (forall k, k <> currentPlayerIndex rejected ->
            players h2 !! k = players rejected !! k)
      /\ used_words h2 = used_words rejected
      /\ plays h2 = plays rejected).
Proof.
  intros accepted rejected. split.
  - refine (proj1 (answered_turn_spec small_words 0 0 AwaitEditNextup accepted
                     (say 1 "AB") (Player_init 1 "Owner") _ _ _) _).
    + split; [reflexivity | left; reflexivity].
    + reflexivity.
    + reflexivity.
    + simpl. repeat split; try lia; unfold small_words; set_solver.
  - refine (proj2 (answered_turn_spec small_words 0 0 AwaitEditNextup rejected
                     (say 1 "zz") (Player_init 1 "Owner") _ _ _) _).
    + split; [reflexivity | left; reflexivity].
    + reflexivity.
    + reflexivity.
    + intros (_ & _ & H & _). vm_compute in H. discriminate H.
Defined.
